(** * tty2img: rendering a pyte terminal screen as a PIL image

    A shallow embedding of [src/tty2img.py] (class [tty2img] with its
    constructor, [memofont] and [render], and the module function
    [_convertColor]), followed by the properties established about it.

    Python integers are unbounded: they are modelled by [Z], and [//] by
    [Z.div] (both round towards minus infinity).  Python exceptions are
    modelled by an error type; a function that can raise returns a
    [result].  The libraries the module calls (PIL, freetype, the builtins
    [hex] and [ord]) are not part of the repository: what the code needs
    from them is gathered in the record [Host]. *)

From Stdlib Require Import ZArith List String Ascii Bool Lia Sorted Permutation.
Import ListNotations.
Open Scope string_scope.
Open Scope list_scope.
Open Scope Z_scope.

(** ** Exceptions and the error monad *)

Inductive exn : Type :=
| NameError (name : string)        (* name '...' is not defined *)
| IndexError                       (* string index out of range *)
| KeyError (key : Z)
| AttributeError (attr : string)   (* 'NoneType' object has no attribute *)
| TypeError                        (* ord() expected a character *)
| ValueError (what : string)       (* PIL: unknown color specifier, bad size *)
| OSError (file : string)          (* cannot open resource *)
| FT_Exception (file : string).    (* freetype cannot open the face *)

Inductive result (A : Type) : Type :=
| Ok (a : A)
| Err (e : exn).
Arguments Ok {A} a.
Arguments Err {A} e.

Definition bind {A B : Type} (m : result A) (k : A -> result B) : result B :=
  match m with
  | Ok a => k a
  | Err e => Err e
  end.

Definition rmap {A B : Type} (f : A -> B) (m : result A) : result B :=
  match m with
  | Ok a => Ok (f a)
  | Err e => Err e
  end.

Notation "x <- m ;; k" := (bind m (fun x => k))
  (at level 61, m at next level, right associativity).
Notation "' pat <- m ;; k" := (bind m (fun x => match x with pat => k end))
  (at level 61, pat pattern, m at next level, right associativity).

(** A [for] loop whose body can raise: the state is threaded through the
    iterations, and the first exception ends the loop. *)
Fixpoint foldM {A B : Type} (f : A -> B -> result A) (a : A) (l : list B)
  : result A :=
  match l with
  | [] => Ok a
  | b :: l' => a' <- f a b ;; foldM f a' l'
  end.

(** ** The consumed collaborator: a pyte screen *)

Module pyte.

(** [pyte.screens.Char]: one cell of the screen. *)
Record Char : Type := mkChar {
  data : string;
  fg : string;
  bg : string;
  bold : bool;
  italics : bool;
  underscore : bool;
  strikethrough : bool;
  reverse : bool
}.

Record Cursor : Type := mkCursor {
  x : Z;
  y : Z;
  hidden : bool
}.

(** [buffer] is a dict of dicts, line -> column -> Char.  A dict is kept as
    an association list in insertion order, which is the order in which
    [for line in screen.buffer] visits the lines; a key occurs once. *)
Record Screen : Type := mkScreen {
  columns : Z;
  lines : Z;
  buffer : list (Z * list (Z * Char));
  cursor : Cursor
}.

(** The cell pyte stores where nothing else was written. *)
Definition blank : Char :=
  mkChar " " "default" "default" false false false false false.

End pyte.

(** [d[k]] and [k in d] on a dict kept as an association list. *)
Fixpoint lookup {V : Type} (k : Z) (d : list (Z * V)) : option V :=
  match d with
  | [] => None
  | (k', v) :: d' => if k' =? k then Some v else lookup k d'
  end.

Definition getitem {V : Type} (d : list (Z * V)) (k : Z) : result V :=
  match lookup k d with
  | Some v => Ok v
  | None => Err (KeyError k)
  end.

Definition contains {V : Type} (k : Z) (d : list (Z * V)) : bool :=
  match lookup k d with
  | Some _ => true
  | None => false
  end.

Definition keys {V : Type} (d : list (Z * V)) : list Z := map fst d.

(** [sorted] on integers. *)
Fixpoint insert (k : Z) (l : list Z) : list Z :=
  match l with
  | [] => [k]
  | h :: t => if k <=? h then k :: l else h :: insert k t
  end.

Fixpoint sorted (l : list Z) : list Z :=
  match l with
  | [] => []
  | h :: t => insert h (sorted t)
  end.

(** [range(a, b)]: the [b - a] integers from [a] on. *)
Fixpoint range_from (a : Z) (n : nat) : list Z :=
  match n with
  | O => []
  | S n' => a :: range_from (a + 1) n'
  end.

Definition range (a b : Z) : list Z := range_from a (Z.to_nat (b - a)).

(** ** PIL and freetype values *)

(** [ImageFont.FreeTypeFont]: the file it was opened from and its size. *)
Record Font : Type := mkFont {
  path : string;
  size : Z
}.

(** [freetype.Face]. *)
Record Face : Type := mkFace {
  face_path : string
}.

(** The two-element list [[ImageFont font, freetype face or None]]. *)
Definition FontPair : Type := (Font * option Face)%type.

(** The calls made on an [ImageDraw.Draw], with their coordinates. *)
Inductive DrawOp : Type :=
| Rectangle (x0 y0 x1 y1 : Z) (fill : string)
| Line (x0 y0 x1 y1 : Z) (fill : string)
| Text (x y : Z) (s : string) (fill : string) (font : Font).

(** An image is known by how it was made; pixels are PIL's business. *)
Inductive Image : Type :=
| Image_new (mode : string) (width height : Z) (color : string)
| Image_drawn (im : Image) (ops : list DrawOp)
| Image_resize (im : Image) (width height : Z) (resample : string).

Fixpoint Image_size (im : Image) : Z * Z :=
  match im with
  | Image_new _ w h _ => (w, h)
  | Image_drawn im' _ => Image_size im'
  | Image_resize _ w h _ => (w, h)
  end.

(** What the module needs from the host: font files, glyph metrics and
    coverage, PIL's colour names, and [hex(ord(c))]. *)
Record Host : Type := mkHost {
  (* ImageFont.truetype(name, size) can open the file *)
  truetype_ok : string -> Z -> bool;
  (* font.getsize(text) = (width, height) *)
  getsize : Font -> string -> Z * Z;
  (* font.getmetrics() = (ascent, descent) *)
  getmetrics : Font -> Z * Z;
  (* freetype.Face(path) can open the file *)
  face_ok : string -> bool;
  (* face.get_char_index(char): the glyph index of ord(char), 0 when the
     face has no such glyph; where ord(char) raises, the call raises and
     the value here is 0 by convention (see get_char_index_ord) *)
  get_char_index : Face -> string -> Z;
  (* the keys of ImageColor.colormap *)
  colormap : list string;
  (* ImageColor.getrgb accepts the colour specifier *)
  getrgb_ok : string -> bool;
  (* hex(ord(c)); None when c is not one character (TypeError) *)
  hex_ord : string -> option string;
  (* the convention on get_char_index where ord raises *)
  get_char_index_ord :
    forall face c, hex_ord c = None -> get_char_index face c = 0
}.

(** The instance: the attributes set by [__init__]. *)
Record tty2img : Type := mk_tty2img {
  antialiasing : Z;
  lineSpace : Z;
  marginSize : Z;
  fontSize : Z;
  normalFont : FontPair;
  boldFont : FontPair;
  italicsFont : FontPair;
  boldItalicsFont : FontPair;
  charWidth : Z;
  charHeight : Z;
  imgWidth : Z;
  imgHeight : Z;
  bgDefaultColor : string;
  fgDefaultColor : string;
  base_image : Image;
  showCursor : bool
}.

Definition set_showCursor (self : tty2img) (b : bool) : tty2img :=
  mk_tty2img (antialiasing self) (lineSpace self) (marginSize self)
    (fontSize self) (normalFont self) (boldFont self) (italicsFont self)
    (boldItalicsFont self) (charWidth self) (charHeight self)
    (imgWidth self) (imgHeight self) (bgDefaultColor self)
    (fgDefaultColor self) (base_image self) b.

(** The arguments of [__init__]. *)
Record Args : Type := mkArgs {
  a_screen : pyte.Screen;
  a_fgDefaultColor : string;
  a_bgDefaultColor : string;
  a_fontName : string;
  a_boldFontName : string;
  a_italicsFontName : string;
  a_boldItalicsFontName : string;
  a_fallbackFonts : list string;
  a_fontSize : Z;
  a_lineSpace : Z;
  a_marginSize : Z;
  a_antialiasing : Z;
  a_showCursor : bool;
  a_logFunction : bool          (* a sink is given (True) or None *)
}.

(** The names [memofont] uses without binding them.  They are locals of
    [__init__] or [render], or a module whose import is commented out, so
    inside [memofont] Python looks them up among the module's globals.  A
    field is [None] when the global does not exist. *)
Record Globals : Type := mkGlobals {
  g_fallbackFonts : option (list string);
  (* fclist.fclist(family, charset): the files of the matching fonts *)
  g_fclist : option (string -> string -> list string);
  g_cData : option pyte.Char;
  g_fontSize : option Z;
  (* logFunction: a sink (true) or None/falsy (false) *)
  g_logFunction : option bool
}.

(** The globals of the module as the source defines them: [Image],
    [ImageDraw], [ImageFont], [ImageColor], [copy], [functools], [pyte],
    [freetype], [tty2img] and [_convertColor]; none of the above. *)
Definition module_globals : Globals :=
  mkGlobals None None None None None.

Definition global {A : Type} (name : string) (v : option A) : result A :=
  match v with
  | Some a => Ok a
  | None => Err (NameError name)
  end.

Section Program.

Context (H : Host).

(** ** PIL and freetype calls *)

Definition truetype (name : string) (sz : Z) : result Font :=
  if truetype_ok H name sz then Ok (mkFont name sz) else Err (OSError name).

Definition freetype_Face (p : string) : result Face :=
  if face_ok H p then Ok (mkFace p) else Err (FT_Exception p).

Definition getink (fill : string) : result string :=
  if getrgb_ok H fill then Ok fill else Err (ValueError fill).

Definition Image_new_checked (mode : string) (w h : Z) (color : string)
  : result Image :=
  c <- getink color ;;
  Ok (Image_new mode w h c).

Definition draw_rectangle (ops : list DrawOp) (x0 y0 x1 y1 : Z)
  (fill : string) : result (list DrawOp) :=
  c <- getink fill ;;
  Ok (ops ++ [Rectangle x0 y0 x1 y1 c]).

Definition draw_line (ops : list DrawOp) (x0 y0 x1 y1 : Z)
  (fill : string) : result (list DrawOp) :=
  c <- getink fill ;;
  Ok (ops ++ [Line x0 y0 x1 y1 c]).

Definition draw_text (ops : list DrawOp) (x y : Z) (s : string)
  (fill : string) (font : Font) : result (list DrawOp) :=
  c <- getink fill ;;
  Ok (ops ++ [Text x y s c font]).

(** [image.resize(size, Image.ANTIALIAS)]; PIL refuses an empty size. *)
Definition resize (im : Image) (w h : Z) : result Image :=
  if (w <? 1) || (h <? 1) then Err (ValueError "height and width must be > 0")
  else Ok (Image_resize im w h "ANTIALIAS").

(** [face.get_char_index(char)]: freetype takes [ord(char)] of a string
    argument first, which raises [TypeError] unless the string is one
    character. *)
Definition face_get_char_index (face : Face) (char : string) : result Z :=
  match hex_ord H char with
  | Some _ => Ok (get_char_index H face char)
  | None => Err TypeError
  end.

(** ** _convertColor *)

Definition _convertColor (color : string) : result string :=
  match color with
  | EmptyString => Err IndexError
  | String c0 _ =>
      if negb (Ascii.eqb c0 "#") && negb (existsb (String.eqb color) (colormap H))
      then Ok ("#" ++ color)%string
      else Ok color
  end.

(** ** __init__ *)

(** The test of line 109 on the font loaded at a candidate size.  It reads
    the arguments [lineSpace] and [marginSize], not the attributes. *)
Definition overflows (a : Args) (f : Font) : bool :=
  let cw := fst (getsize H f "X") in
  let ch := fst (getmetrics H f) + snd (getmetrics H f) + a_lineSpace a in
  let iw := cw * pyte.columns (a_screen a) + 2 * a_marginSize a in
  let ih := ch * pyte.lines (a_screen a) + 2 * a_marginSize a in
  (iw >? 1920) || (ih >? 1080).

(** The loop of lines 102-111 over the candidate sizes; [fontSize] is the
    local variable, overwritten before [break].  The progress line printed
    on standard output at each candidate is not kept. *)
Fixpoint negotiate (a : Args) (candidates : list Z) (fontSize : Z)
  : result Z :=
  match candidates with
  | [] => Ok fontSize
  | i :: rest =>
      f <- truetype (a_fontName a) i ;;
      if overflows a f then Ok i else negotiate a rest fontSize
  end.

Definition __init__ (a : Args) : result tty2img :=
  let antialiasing := a_antialiasing a in
  let '(self_lineSpace, self_marginSize, self_fontSize) :=
    if antialiasing >? 1
    then (a_lineSpace a * antialiasing,
          a_marginSize a * antialiasing,
          a_fontSize a * antialiasing)
    else (a_lineSpace a, a_marginSize a, a_fontSize a) in
  fontSize <- negotiate a (range 8 64) (a_fontSize a) ;;
  normal0 <- truetype (a_fontName a) fontSize ;;
  bold0 <- truetype (a_boldFontName a) fontSize ;;
  italics0 <- truetype (a_italicsFontName a) fontSize ;;
  boldItalics0 <- truetype (a_boldItalicsFontName a) fontSize ;;
  normal1 <- freetype_Face (path normal0) ;;
  bold1 <- freetype_Face (path bold0) ;;
  italics1 <- freetype_Face (path italics0) ;;
  boldItalics1 <- freetype_Face (path boldItalics0) ;;
  let charWidth := fst (getsize H normal0 "X") in
  let charHeight :=
    fst (getmetrics H normal0) + snd (getmetrics H normal0) + a_lineSpace a in
  let imgWidth := 1920 in
  let imgHeight := 1080 in
  base_image <- Image_new_checked "RGBA" imgWidth imgHeight (a_bgDefaultColor a) ;;
  Ok (mk_tty2img antialiasing self_lineSpace self_marginSize self_fontSize
        (normal0, Some normal1) (bold0, Some bold1)
        (italics0, Some italics1) (boldItalics0, Some boldItalics1)
        charWidth charHeight imgWidth imgHeight
        (a_bgDefaultColor a) (a_fgDefaultColor a) base_image
        (a_showCursor a)).

(** ** memofont *)

Section Memofont.

Context (g : Globals).

(** The two nested loops of lines 147-154: the first font file that
    [fclist] reports, over the families in order.  [Some] is the state at
    [break] (the font and [extraWidth]); [None] is normal exhaustion, which
    runs the [else] of the [for]. *)
Fixpoint fallback_search (self : tty2img) (families : list string)
  : result (option (Font * Z)) :=
  match families with
  | [] => Ok None
  | fname :: rest =>
      fclist <- global "fclist" (g_fclist g) ;;
      cData <- global "cData" (g_cData g) ;;
      charset <- match hex_ord H (pyte.data cData) with
                 | Some h => Ok h
                 | None => Err TypeError
                 end ;;
      match fclist fname charset with
      | ff :: _ =>
          fontSize <- global "fontSize" (g_fontSize g) ;;
          font0 <- truetype ff fontSize ;;
          cData <- global "cData" (g_cData g) ;;
          let extraWidth :=
            Z.max 0 (fst (getsize H font0 (pyte.data cData)) - charWidth self) in
          Ok (Some (font0, extraWidth))
      | [] => fallback_search self rest
      end
  end.

(** The body of [memofont], lines 143-158, as it runs when the cache of
    [functools.lru_cache] has no entry for the arguments.  Returns
    [(extraWidth, font)] and the messages handed to the sink. *)
Definition memofont_in (self : tty2img) (font0 : Font) (font1 : option Face)
  (char : string) : result (Z * FontPair * list string) :=
  let font := (font0, font1) in
  let extraWidth := 0 in
  face <- match font1 with
          | Some f => Ok f
          | None => Err (AttributeError "get_char_index")
          end ;;
  index <- face_get_char_index face char ;;
  if index =? 0 then
    fallbackFonts <- global "fallbackFonts" (g_fallbackFonts g) ;;
    found <- fallback_search self fallbackFonts ;;
    match found with
    | Some (f, extraWidth) => Ok (extraWidth, (f, None), [])
    | None =>
        logFunction <- global "logFunction" (g_logFunction g) ;;
        if (logFunction : bool) then
          cData <- global "cData" (g_cData g) ;;
          h <- match hex_ord H (pyte.data cData) with
               | Some h => Ok h
               | None => Err TypeError
               end ;;
          Ok (extraWidth, font,
              [("Missing glyph for " ++ h ++ " Unicode symbols ("
                ++ pyte.data cData ++ ")")%string])
        else Ok (extraWidth, font, [])
    end
  else Ok (extraWidth, font, []).

(** The method behind [@functools.lru_cache()], line 141.  The cache
    maps the arguments of earlier calls that returned to their results,
    most recently used first, and holds at most 128 of them.  Python
    compares the instance and the two font objects by identity, since
    their classes define no equality, and the character by value: a key
    is the three identities and the character.

    On a hit the stored result is returned, nothing of the body runs (no
    message reaches the sink), and the entry becomes the most recent.  On
    a miss the body runs; its result is stored in front, the least
    recently used entry leaving a full cache; an exception is passed on
    and not stored. *)
Definition CacheKey : Type := (Z * Z * Z * string)%type.

Definition key_eqb (k k' : CacheKey) : bool :=
  let '(s, f0, f1, c) := k in
  let '(s', f0', f1', c') := k' in
  (s =? s') && (f0 =? f0') && (f1 =? f1') && (c =? c')%string.

Definition Cache : Type := list (CacheKey * (Z * FontPair)).

Definition maxsize : nat := 128.

Fixpoint cache_get (k : CacheKey) (cache : Cache) : option (Z * FontPair) :=
  match cache with
  | [] => None
  | (k', v) :: rest => if key_eqb k' k then Some v else cache_get k rest
  end.

Fixpoint cache_remove (k : CacheKey) (cache : Cache) : Cache :=
  match cache with
  | [] => []
  | (k', v) :: rest =>
      if key_eqb k' k then cache_remove k rest
      else (k', v) :: cache_remove k rest
  end.

(** The key of a call: the identities [id(self)], [id(font0)] and
    [id(font1)] of the three objects, and the character. *)
Definition call_key (ids : Z * Z * Z) (char : string) : CacheKey :=
  let '(s, f0, f1) := ids in (s, f0, f1, char).

(** The result or exception, the messages handed to the sink during the
    call, and the cache after it. *)
Definition memofont_cached (cache : Cache) (ids : Z * Z * Z)
  (self : tty2img) (font0 : Font) (font1 : option Face) (char : string)
  : result (Z * FontPair) * list string * Cache :=
  let key := call_key ids char in
  match cache_get key cache with
  | Some v => (Ok v, [], (key, v) :: cache_remove key cache)
  | None =>
      match memofont_in self font0 font1 char with
      | Ok (v, log) => (Ok v, log, firstn maxsize ((key, v) :: cache))
      | Err e => (Err e, [], cache)
      end
  end.

End Memofont.

(** The method as [render] sees it, with the globals the module has.
    There the body hands nothing to the sink and its outcome is fixed by
    the fonts and the character, so a result taken from the cache is the
    one the body gives: the cache is not threaded through [render]. *)
Definition memofont (self : tty2img) (font0 : Font) (font1 : option Face)
  (char : string) : result (Z * FontPair) :=
  rmap fst (memofont_in module_globals self font0 font1 char).

(** ** render *)

(** Lines 183-190: the colours of a cell before [_convertColor]. *)
Definition cell_colors (self : tty2img) (screen : pyte.Screen)
  (line char : Z) (cData : pyte.Char) : string * string :=
  let bgColor := if negb (pyte.bg cData =? "default")%string
                 then pyte.bg cData else bgDefaultColor self in
  let fgColor := if negb (pyte.fg cData =? "default")%string
                 then pyte.fg cData else fgDefaultColor self in
  let '(bgColor, fgColor) :=
    if pyte.reverse cData then (fgColor, bgColor) else (bgColor, fgColor) in
  let '(bgColor, fgColor) :=
    if showCursor self && (line =? pyte.y (pyte.cursor screen))
       && (char =? pyte.x (pyte.cursor screen))
    then (fgColor, bgColor) else (bgColor, fgColor) in
  (bgColor, fgColor).

(** Lines 199-206. *)
Definition select_font (self : tty2img) (cData : pyte.Char) : FontPair :=
  if pyte.bold cData && pyte.italics cData then boldItalicsFont self
  else if pyte.bold cData then boldFont self
  else if pyte.italics cData then italicsFont self
  else normalFont self.

(** Lines 182-222: what is done for a cell with a character, at [point]. *)
Definition draw_cell (self : tty2img) (screen : pyte.Screen)
  (line char : Z) (cData : pyte.Char) (point0 point1 : Z)
  (ops : list DrawOp) : result (Z * list DrawOp) :=
  let '(bgColor, fgColor) := cell_colors self screen line char cData in
  bgColor <- _convertColor bgColor ;;
  fgColor <- _convertColor fgColor ;;
  ops <- (if negb (bgColor =? bgDefaultColor self)%string
          then draw_rectangle ops point0 point1
                 (point0 + charWidth self) (point1 + charHeight self) bgColor
          else Ok ops) ;;
  let font := select_font self cData in
  '(extraWidth, font) <- memofont self (fst font) (snd font) (pyte.data cData) ;;
  ops <- (if pyte.underscore cData
          then draw_line ops point0 (point1 + charHeight self - 1)
                 (point0 + charWidth self) (point1 + charHeight self - 1)
                 fgColor
          else Ok ops) ;;
  ops <- (if pyte.strikethrough cData
          then draw_line ops point0 (point1 + charHeight self / 2)
                 (point0 + charWidth self) (point1 + charHeight self / 2)
                 fgColor
          else Ok ops) ;;
  ops <- draw_text ops point0 point1 (pyte.data cData) fgColor (fst font) ;;
  Ok (point0 + charWidth self + extraWidth, ops).

(** Lines 172-222: the body of the loop over the columns of a line.  The
    state is [point[0]], [lchar] and the drawing done so far. *)
Definition render_char (self : tty2img) (screen : pyte.Screen) (line : Z)
  (row : list (Z * pyte.Char)) (point1 : Z)
  (st : Z * Z * list DrawOp) (char : Z) : result (Z * Z * list DrawOp) :=
  let '(point0, lchar, ops) := st in
  cData <- getitem row char ;;
  let point0 := point0 + charWidth self * (char - lchar - 1) in
  let lchar := char in
  if (pyte.data cData =? EmptyString)%string then Ok (point0, lchar, ops)
  else
    '(point0, ops) <- draw_cell self screen line char cData point0 point1 ops ;;
    Ok (point0, lchar, ops).

(** Lines 171-222: the loop over the columns of a line. *)
Definition render_chars (self : tty2img) (screen : pyte.Screen) (line : Z)
  (row : list (Z * pyte.Char)) (point1 : Z)
  (st : Z * Z * list DrawOp) (columns : list Z)
  : result (Z * Z * list DrawOp) :=
  foldM (render_char self screen line row point1) st columns.

(** Lines 169-227: the body of the loop over the lines. *)
Definition render_line (self : tty2img) (screen : pyte.Screen)
  (ops : list DrawOp) (line : Z) : result (list DrawOp) :=
  row <- getitem (pyte.buffer screen) line ;;
  let point1 := line * charHeight self + marginSize self in
  let columns := sorted (keys row) in
  '(point0, _, ops) <-
     render_chars self screen line row point1
       (marginSize self, -1, ops) columns ;;
  (* the loop variable keeps its last value, or the initial -1 *)
  let char := last columns (-1) in
  if showCursor self && (line =? pyte.y (pyte.cursor screen))
     && negb (contains (pyte.x (pyte.cursor screen)) row)
  then
    let point0 := point0 + (pyte.x (pyte.cursor screen) - char - 1) * charWidth self in
    draw_rectangle ops point0 point1
      (point0 + charWidth self) (point1 + charHeight self)
      (fgDefaultColor self)
  else Ok ops.

(** The instance after the call, and the image returned or the exception
    raised. *)
Definition render (self : tty2img) (screen : pyte.Screen)
  : tty2img * result Image :=
  let image := base_image self in
  let self :=
    set_showCursor self
      (showCursor self && negb (pyte.hidden (pyte.cursor screen))) in
  (self,
   ops <- foldM (render_line self screen) [] (keys (pyte.buffer screen)) ;;
   let image := Image_drawn image ops in
   if antialiasing self >? 1
   then resize image (imgWidth self / antialiasing self)
          (imgHeight self / antialiasing self)
   else Ok image).

End Program.

(** * Vocabulary of the statements

    The colour rule in the words of the specification, to be compared
    with [cell_colors]: defaults first, then one exchange for reverse
    video, then one for the cursor. *)

Definition swap_colors (p : string * string) : string * string :=
  (snd p, fst p).

Definition with_defaults (self : tty2img) (cData : pyte.Char)
  : string * string :=
  (if (pyte.bg cData =? "default")%string
   then bgDefaultColor self else pyte.bg cData,
   if (pyte.fg cData =? "default")%string
   then fgDefaultColor self else pyte.fg cData).

Definition is_cursor_cell (self : tty2img) (screen : pyte.Screen)
  (line char : Z) : bool :=
  showCursor self && (line =? pyte.y (pyte.cursor screen))
  && (char =? pyte.x (pyte.cursor screen)).

Definition effective_colors (self : tty2img) (screen : pyte.Screen)
  (line char : Z) (cData : pyte.Char) : string * string :=
  (if is_cursor_cell self screen line char then swap_colors else id)
    ((if pyte.reverse cData then swap_colors else id)
       (with_defaults self cData)).

(** The instance [__init__] builds once the size negotiation has left
    [fontSize0] in the local variable [fontSize] and every file has
    opened. *)
Definition built (H : Host) (a : Args) (fontSize0 : Z) : tty2img :=
  let F := a_antialiasing a in
  let normal0 := mkFont (a_fontName a) fontSize0 in
  mk_tty2img F
    (if F >? 1 then a_lineSpace a * F else a_lineSpace a)
    (if F >? 1 then a_marginSize a * F else a_marginSize a)
    (if F >? 1 then a_fontSize a * F else a_fontSize a)
    (normal0, Some (mkFace (a_fontName a)))
    (mkFont (a_boldFontName a) fontSize0, Some (mkFace (a_boldFontName a)))
    (mkFont (a_italicsFontName a) fontSize0,
     Some (mkFace (a_italicsFontName a)))
    (mkFont (a_boldItalicsFontName a) fontSize0,
     Some (mkFace (a_boldItalicsFontName a)))
    (fst (getsize H normal0 "X"))
    (fst (getmetrics H normal0) + snd (getmetrics H normal0) + a_lineSpace a)
    1920 1080
    (a_bgDefaultColor a) (a_fgDefaultColor a)
    (Image_new "RGBA" 1920 1080 (a_bgDefaultColor a))
    (a_showCursor a).

(** Everything [__init__] loads when no candidate size overflows: the
    normal font at each candidate from 8 to 63, the four fonts at the
    [fontSize] argument, their faces, and the background colour. *)
Definition loads_ok (H : Host) (a : Args) : bool :=
  forallb (truetype_ok H (a_fontName a)) (range 8 64)
  && truetype_ok H (a_fontName a) (a_fontSize a)
  && truetype_ok H (a_boldFontName a) (a_fontSize a)
  && truetype_ok H (a_italicsFontName a) (a_fontSize a)
  && truetype_ok H (a_boldItalicsFontName a) (a_fontSize a)
  && face_ok H (a_fontName a)
  && face_ok H (a_boldFontName a)
  && face_ok H (a_italicsFontName a)
  && face_ok H (a_boldItalicsFontName a)
  && getrgb_ok H (a_bgDefaultColor a).

(** A cell that [render] can draw: it is skipped, or PIL accepts its two
    colours and the face of its font variant has a glyph for it. *)
Definition cell_ok (H : Host) (self : tty2img) (cData : pyte.Char) : bool :=
  (pyte.data cData =? EmptyString)%string
  || (match _convertColor H (fst (with_defaults self cData)),
            _convertColor H (snd (with_defaults self cData)) with
      | Ok b, Ok f => getrgb_ok H b && getrgb_ok H f
      | _, _ => false
      end
      && match snd (select_font self cData) with
         | Some face => negb (get_char_index H face (pyte.data cData) =? 0)
         | None => false
         end).

Definition screen_ok (H : Host) (self : tty2img) (screen : pyte.Screen)
  : bool :=
  forallb (fun lr : Z * list (Z * pyte.Char) =>
             forallb (fun cc : Z * pyte.Char => cell_ok H self (snd cc))
               (snd lr))
    (pyte.buffer screen)
  && getrgb_ok H (fgDefaultColor self).

(** Moving a drawing call horizontally. *)
Definition shift_op (dx : Z) (op : DrawOp) : DrawOp :=
  match op with
  | Rectangle x0 y0 x1 y1 fill => Rectangle (x0 + dx) y0 (x1 + dx) y1 fill
  | Line x0 y0 x1 y1 fill => Line (x0 + dx) y0 (x1 + dx) y1 fill
  | Text x y s fill font => Text (x + dx) y s fill font
  end.

(** The state of the loop over the columns, with drawing calls put in
    front of its own, and moved horizontally. *)
Definition after (ops : list DrawOp) (st : Z * Z * list DrawOp)
  : Z * Z * list DrawOp :=
  let '(point0, lchar, o) := st in (point0, lchar, ops ++ o).

Definition shifted (dx : Z) (st : Z * Z * list DrawOp)
  : Z * Z * list DrawOp :=
  let '(point0, lchar, o) := st in (point0 + dx, lchar, map (shift_op dx) o).

(** The drawing calls an image carries, in the order they were made. *)
Fixpoint Image_ops (im : Image) : list DrawOp :=
  match im with
  | Image_new _ _ _ _ => []
  | Image_drawn im' ops => Image_ops im' ++ ops
  | Image_resize im' _ _ _ => Image_ops im'
  end.

(** How many of the columns hold a cell whose character is the empty
    string. *)
Fixpoint count_empty (row : list (Z * pyte.Char)) (columns : list Z) : Z :=
  match columns with
  | [] => 0
  | c :: rest =>
      (match lookup c row with
       | Some cData =>
           if (pyte.data cData =? EmptyString)%string then 1 else 0
       | None => 0
       end) + count_empty row rest
  end.

(** A drawing call that lies in the band of pixels of a screen line: a
    cell-high rectangle from the top of the band, a horizontal line on its
    last or its middle row, or a text anchored at its top. *)
Definition op_in_line (self : tty2img) (line : Z) (op : DrawOp) : Prop :=
  let top := line * charHeight self + marginSize self in
  match op with
  | Rectangle _ y0 _ y1 _ => y0 = top /\ y1 = top + charHeight self
  | Line _ y0 _ y1 _ =>
      y0 = y1 /\
      (y0 = top + charHeight self - 1 \/ y0 = top + charHeight self / 2)
  | Text _ y _ _ _ => y = top
  end.

(** The exceptions [render] lets out. *)
Definition render_exn (e : exn) : Prop :=
  e = IndexError \/ (exists what, e = ValueError what)
  \/ e = NameError "fallbackFonts" \/ e = TypeError.

(** * A host to compute with

    A small host on which the program can be run: every font file opens, a
    glyph is as wide as the point size, a face covers the 7-bit characters,
    and PIL knows five colour names and everything that starts with a hash
    mark. *)

Module Toy.

Definition ascii_index (char : string) : Z :=
  match char with
  | String c EmptyString =>
      if (nat_of_ascii c <? 128)%nat then Z.of_nat (nat_of_ascii c) else 0
  | _ => 0
  end.

Definition names : list string := ["black"; "white"; "red"; "green"; "blue"].

Definition known (c : string) : bool :=
  existsb (String.eqb c) names
  || match c with
     | String c0 _ => Ascii.eqb c0 "#"
     | EmptyString => false
     end.

Definition host : Host :=
  mkHost
    (fun _ _ => true)
    (fun f s => (size f * Z.of_nat (String.length s), size f))
    (fun f => (size f, size f / 4))
    (fun _ => true)
    (fun _ char => ascii_index char)
    names
    known
    (fun s => match s with
              | String _ EmptyString => Some ("0x" ++ s)%string
              | _ => None
              end)
    ltac:(intros face c; destruct c as [| c0 [| c1 rest]]; cbn; intros E;
          [reflexivity | discriminate E | reflexivity]).

Definition cell (s : string) : pyte.Char :=
  pyte.mkChar s "default" "default" false false false false false.

(** An 80x24 screen showing [A] in its first cell, cursor at the origin. *)
Definition screen80 : pyte.Screen :=
  pyte.mkScreen 80 24 [(0, [(0, cell "A")])] (pyte.mkCursor 0 0 false).

(** A 10x5 screen with the same content. *)
Definition screen10 : pyte.Screen :=
  pyte.mkScreen 10 5 [(0, [(0, cell "A")])] (pyte.mkCursor 0 0 false).

(** The keyword defaults of [__init__]. *)
Definition defaults (screen : pyte.Screen) : Args :=
  mkArgs screen "black" "white"
    "DejaVuSansMono.ttf" "DejaVuSansMono-Bold.ttf"
    "DejaVuSansMono-Oblique.ttf" "DejaVuSansMono-BoldOblique.ttf"
    ["DroidSansFallback"; "Symbola"]
    16 0 10 0 false false.

(** The instance made from the defaults on the 10x5 screen: no candidate
    size overflows there, and the fonts are loaded at size 16. *)
Definition renderer : tty2img := built host (defaults screen10) 16.

(** The same with [showCursor = True]. *)
Definition args_cursor : Args :=
  mkArgs screen10 "black" "white"
    "DejaVuSansMono.ttf" "DejaVuSansMono-Bold.ttf"
    "DejaVuSansMono-Oblique.ttf" "DejaVuSansMono-BoldOblique.ttf"
    ["DroidSansFallback"; "Symbola"]
    16 0 10 0 true false.

Definition with_cursor : tty2img := built host args_cursor 16.

(** The 10x5 screen with its cursor hidden. *)
Definition screen_hidden : pyte.Screen :=
  pyte.mkScreen 10 5 [(0, [(0, cell "A")])] (pyte.mkCursor 0 0 true).

(** Antialiasing factor 2, three pixels between lines, on the 80x24
    screen. *)
Definition antialiased : Args :=
  mkArgs screen80 "black" "white"
    "DejaVuSansMono.ttf" "DejaVuSansMono-Bold.ttf"
    "DejaVuSansMono-Oblique.ttf" "DejaVuSansMono-BoldOblique.ttf"
    ["DroidSansFallback"; "Symbola"]
    16 3 10 2 false false.

(** A character outside the 7-bit range, which the faces of this host do
    not cover, and a screen showing it after an [A]. *)
Definition uncovered : string := String "233"%char EmptyString.

Definition screen_uncovered : pyte.Screen :=
  pyte.mkScreen 10 5 [(0, [(0, cell "A"); (1, cell uncovered)])]
    (pyte.mkCursor 0 0 false).

(** A cell holding two characters, as pyte stores a letter with a
    combining mark: this host's [ord] refuses it. *)
Definition screen_combining : pyte.Screen :=
  pyte.mkScreen 10 5 [(0, [(0, cell "e'")])] (pyte.mkCursor 0 0 false).

(** Identities for an instance, its normal font and its face. *)
Definition ids : Z * Z * Z := (1, 2, 3).

(** Globals in which the names [memofont] needs are bound: one fallback
    family with one file, loaded at size 20. *)
Definition patched : Globals :=
  mkGlobals (Some ["Symbola"]) (Some (fun _ _ => ["Symbola.ttf"]))
    (Some (cell "W")) (Some 20) (Some false).

(** Globals bound as above, with two families of which only the second
    has a font for the character. *)
Definition patched_second : Globals :=
  mkGlobals (Some ["DroidSansFallback"; "Symbola"])
    (Some (fun family _ =>
             if (family =? "Symbola")%string then ["Symbola.ttf"] else []))
    (Some (cell "W")) (Some 20) (Some false).

(** Globals bound with no font for the character in any family, and a
    sink for the diagnostics. *)
Definition patched_none : Globals :=
  mkGlobals (Some ["DroidSansFallback"; "Symbola"])
    (Some (fun _ _ => [])) (Some (cell "W")) (Some 20) (Some true).

(** A row with an empty-string cell at column 1, and a screen whose cursor
    stands on an unpopulated column of that row. *)
Definition row_empty : list (Z * pyte.Char) :=
  [(0, cell "A"); (1, cell EmptyString); (3, cell "B")].

Definition screen_cursor_gap : pyte.Screen :=
  pyte.mkScreen 10 5 [(0, row_empty)] (pyte.mkCursor 6 0 false).

(** The cursor on the empty-string cell. *)
Definition screen_cursor_empty : pyte.Screen :=
  pyte.mkScreen 10 5 [(0, row_empty)] (pyte.mkCursor 1 0 false).

(** The same cells put into the dictionary in another order. *)
Definition row_empty_shuffled : list (Z * pyte.Char) :=
  [(3, cell "B"); (0, cell "A"); (1, cell EmptyString)].

(** The 10x5 screen with its cursor elsewhere and hidden. *)
Definition screen_hidden_elsewhere : pyte.Screen :=
  pyte.mkScreen 10 5 [(0, [(0, cell "A")])] (pyte.mkCursor 7 3 true).

(** A red, underlined and struck-through letter on a bare hex
    background. *)
Definition fancy : pyte.Char :=
  pyte.mkChar "Q" "red" "00ff00" true false true true false.

(** The defaults with a background colour PIL does not know. *)
Definition bad_background : Args :=
  mkArgs screen10 "black" "nocolour"
    "DejaVuSansMono.ttf" "DejaVuSansMono-Bold.ttf"
    "DejaVuSansMono-Oblique.ttf" "DejaVuSansMono-BoldOblique.ttf"
    ["DroidSansFallback"; "Symbola"]
    16 0 10 0 false false.

End Toy.

(** * Properties *)

(** ** The error monad *)

Lemma bind_Ok_inv {A B : Type} (m : result A) (k : A -> result B) (b : B) :
  bind m k = Ok b -> exists a, m = Ok a /\ k a = Ok b.
Proof.
  destruct m as [a | e]; simpl; intros E.
  - exists a. split; [reflexivity | exact E].
  - discriminate E.
Qed.

Lemma bind_Err_inv {A B : Type} (m : result A) (k : A -> result B) (e : exn) :
  bind m k = Err e -> m = Err e \/ exists a, m = Ok a /\ k a = Err e.
Proof.
  destruct m as [a | e']; cbn [bind]; intros E.
  - right. exists a. split; [reflexivity | exact E].
  - left. injection E as <-. reflexivity.
Qed.

Ltac bind_inv E :=
  let a := fresh "a" in
  let Ea := fresh "E" a in
  apply bind_Ok_inv in E; destruct E as [a [Ea E]].

(** ** Dictionaries and [sorted] *)

Lemma insert_In (k x : Z) (l : list Z) :
  In x (insert k l) <-> x = k \/ In x l.
Proof.
  induction l as [| h t IH]; simpl.
  - intuition.
  - destruct (k <=? h); simpl; rewrite ?IH; intuition.
Qed.

Lemma sorted_In (x : Z) (l : list Z) : In x (sorted l) <-> In x l.
Proof.
  induction l as [| h t IH]; simpl.
  - reflexivity.
  - rewrite insert_In, IH. intuition.
Qed.

Lemma insert_StronglySorted (k : Z) (l : list Z) :
  StronglySorted Z.le l -> StronglySorted Z.le (insert k l).
Proof.
  induction 1 as [| h t Ht IH Hh]; simpl.
  - constructor; constructor.
  - destruct (Z.leb_spec k h) as [Hle | Hgt].
    + constructor.
      * constructor; assumption.
      * constructor; [exact Hle |].
        eapply Forall_impl; [| exact Hh]. intros a Ha. simpl in Ha. lia.
    + constructor; [exact IH |].
      apply Forall_forall. intros a Ha. apply insert_In in Ha.
      destruct Ha as [-> | Ha]; [lia |].
      rewrite Forall_forall in Hh. apply Hh. exact Ha.
Qed.

Lemma sorted_StronglySorted (l : list Z) : StronglySorted Z.le (sorted l).
Proof.
  induction l as [| h t IH]; simpl.
  - constructor.
  - apply insert_StronglySorted. exact IH.
Qed.

Lemma insert_comm (a b : Z) (l : list Z) :
  insert a (insert b l) = insert b (insert a l).
Proof.
  induction l as [| h t IH]; simpl.
  - destruct (Z.leb_spec a b), (Z.leb_spec b a); try reflexivity; try lia.
    replace a with b by lia. reflexivity.
  - destruct (Z.leb_spec b h), (Z.leb_spec a h); simpl;
      destruct (Z.leb_spec a b), (Z.leb_spec b a);
      destruct (Z.leb_spec a h), (Z.leb_spec b h);
      try lia; try reflexivity.
    + replace a with b by lia. reflexivity.
    + rewrite IH. reflexivity.
    + rewrite IH. reflexivity.
    + rewrite IH. reflexivity.
Qed.

(** [sorted] does not see where in the dictionary a key was inserted. *)
Lemma sorted_middle (k : Z) (l1 l2 : list Z) :
  sorted (l1 ++ k :: l2) = insert k (sorted (l1 ++ l2)).
Proof.
  induction l1 as [| h t IH]; simpl.
  - reflexivity.
  - rewrite IH. apply insert_comm.
Qed.

Lemma insert_split (k : Z) (s : list Z) :
  StronglySorted Z.le s -> ~ In k s ->
  exists pre post,
    s = pre ++ post /\ insert k s = pre ++ k :: post /\
    (forall j, In j pre -> j < k) /\ (forall j, In j post -> k < j).
Proof.
  induction 1 as [| h t Ht IH Hh]; intros Hk.
  - exists [], []. simpl. intuition.
  - simpl. destruct (Z.leb_spec k h) as [Hle | Hgt].
    + exists [], (h :: t). simpl. repeat split; try contradiction.
      intros j [<- | Hj].
      * assert (k <> h) by (intros ->; apply Hk; left; reflexivity). lia.
      * rewrite Forall_forall in Hh. specialize (Hh j Hj). simpl in Hh.
        assert (k <> j) by (intros ->; apply Hk; right; exact Hj). lia.
    + destruct IH as [pre [post [E1 [E2 [Hpre Hpost]]]]].
      { intros Hin. apply Hk. right. exact Hin. }
      exists (h :: pre), post. simpl. rewrite <- E1, E2.
      repeat split; try assumption.
      intros j [<- | Hj]; [lia | apply Hpre; exact Hj].
Qed.

(** A key put into a dictionary that did not have it: it maps to its
    value, and the other keys map to what they did. *)
Lemma lookup_added {V : Type} (k : Z) (v : V) (d1 d2 : list (Z * V)) :
  ~ In k (keys (d1 ++ d2)) ->
  lookup k (d1 ++ (k, v) :: d2) = Some v.
Proof.
  induction d1 as [| [k' v'] d1 IH]; simpl; intros Hk.
  - rewrite Z.eqb_refl. reflexivity.
  - destruct (Z.eqb_spec k' k) as [-> | _].
    + exfalso. apply Hk. left. reflexivity.
    + apply IH. intros Hin. apply Hk. right. exact Hin.
Qed.

Lemma lookup_other {V : Type} (k j : Z) (v : V) (d1 d2 : list (Z * V)) :
  j <> k ->
  lookup j (d1 ++ (k, v) :: d2) = lookup j (d1 ++ d2).
Proof.
  intros Hj. induction d1 as [| [k' v'] d1 IH]; simpl.
  - destruct (Z.eqb_spec k j) as [-> | _]; [contradiction | reflexivity].
  - destruct (k' =? j); [reflexivity | exact IH].
Qed.

Lemma lookup_In {V : Type} (k : Z) (d : list (Z * V)) :
  In k (keys d) -> exists v, lookup k d = Some v /\ In (k, v) d.
Proof.
  induction d as [| [k' v'] d IH]; simpl; intros Hk.
  - contradiction.
  - destruct (Z.eqb_spec k' k) as [-> | Hne].
    + exists v'. split; [reflexivity | left; reflexivity].
    + destruct Hk as [E | Hk]; [contradiction |].
      destruct (IH Hk) as [v [E Hin]]. exists v.
      split; [exact E | right; exact Hin].
Qed.

Lemma range_from_In (n : nat) :
  forall lo j, In j (range_from lo n) <-> lo <= j < lo + Z.of_nat n.
Proof.
  induction n as [| n IH]; intros lo j; cbn [range_from In].
  - lia.
  - rewrite IH. lia.
Qed.

Lemma range_In (lo hi j : Z) : In j (range lo hi) <-> lo <= j < hi.
Proof. unfold range. rewrite range_from_In. lia. Qed.

Section Facts.

Context (H : Host).

(** ** Construction *)

Lemma truetype_Ok_inv (name : string) (sz : Z) (f : Font) :
  truetype H name sz = Ok f -> truetype_ok H name sz = true /\ f = mkFont name sz.
Proof.
  unfold truetype. destruct (truetype_ok H name sz); intros E.
  - injection E as <-. split; reflexivity.
  - discriminate E.
Qed.

(** What the loop over the candidate sizes leaves in [fontSize]: the
    first candidate that overflows, or the value it had when none does. *)
Lemma negotiate_Ok_inv (a : Args) (fontSize0 : Z) (n : nat) :
  forall (lo r : Z),
  negotiate H a (range_from lo n) fontSize0 = Ok r ->
  (lo <= r < lo + Z.of_nat n /\
   overflows H a (mkFont (a_fontName a) r) = true /\
   forall j, lo <= j < r -> overflows H a (mkFont (a_fontName a) j) = false)
  \/
  (r = fontSize0 /\
   forall j, lo <= j < lo + Z.of_nat n ->
     overflows H a (mkFont (a_fontName a) j) = false).
Proof.
  induction n as [| n IH]; intros lo r E.
  - right. simpl in E. injection E as <-. split; [reflexivity | lia].
  - cbn [range_from negotiate] in E. bind_inv E.
    apply truetype_Ok_inv in Ea0. destruct Ea0 as [_ ->].
    destruct (overflows H a (mkFont (a_fontName a) lo)) eqn:Ov.
    + injection E as <-. left. split; [lia |]. split; [exact Ov | lia].
    + apply IH in E. destruct E as [[Hr [Hov Hlt]] | [-> Hall]].
      * left. split; [lia |]. split; [exact Hov |].
        intros j Hj. destruct (Z.eq_dec j lo) as [-> | Hne];
          [exact Ov | apply Hlt; lia].
      * right. split; [reflexivity |].
        intros j Hj. destruct (Z.eq_dec j lo) as [-> | Hne];
          [exact Ov | apply Hall; lia].
Qed.

(** The loop does not raise when the normal font opens at every candidate
    it tries. *)
Lemma negotiate_total (a : Args) (fontSize0 : Z) (n : nat) :
  forall lo,
  (forall j, lo <= j < lo + Z.of_nat n -> truetype_ok H (a_fontName a) j = true) ->
  exists r, negotiate H a (range_from lo n) fontSize0 = Ok r.
Proof.
  induction n as [| n IH]; intros lo Hok.
  - exists fontSize0. reflexivity.
  - cbn [range_from negotiate]. unfold truetype.
    rewrite Hok by lia. cbn [bind].
    destruct (overflows H a (mkFont (a_fontName a) lo)).
    + exists lo. reflexivity.
    + apply IH. intros j Hj. apply Hok. lia.
Qed.

(** The first candidate that overflows is what the loop leaves. *)
Lemma first_overflow_adopted (a : Args) (fontSize0 i : Z) :
  8 <= i < 64 ->
  overflows H a (mkFont (a_fontName a) i) = true ->
  (forall j, 8 <= j < i -> overflows H a (mkFont (a_fontName a) j) = false) ->
  negotiate H a (range 8 64) (a_fontSize a) = Ok fontSize0 ->
  fontSize0 = i.
Proof.
  intros Hi Hov Hbelow Hn. unfold range in Hn.
  apply negotiate_Ok_inv in Hn.
  change (Z.of_nat (Z.to_nat (64 - 8))) with 56 in Hn.
  destruct Hn as [[Hr [Hovr Hlt]] | [_ Hall]].
  - destruct (Z.lt_trichotomy fontSize0 i) as [Lt | [E | Gt]].
    + rewrite Hbelow in Hovr by lia. discriminate Hovr.
    + exact E.
    + rewrite Hlt in Hov by lia. discriminate Hov.
  - rewrite Hall in Hov by lia. discriminate Hov.
Qed.

Lemma init_Ok_inv (a : Args) (self : tty2img) :
  __init__ H a = Ok self ->
  exists fontSize0,
    negotiate H a (range 8 64) (a_fontSize a) = Ok fontSize0 /\
    self = built H a fontSize0.
Proof.
  unfold __init__. intros E.
  destruct (a_antialiasing a >? 1) eqn:EF;
    bind_inv E;
    exists a0; (split; [exact Ea0 |]);
    repeat (let E' := fresh "T" in
            apply bind_Ok_inv in E; destruct E as [? [E' E]];
            first [ apply truetype_Ok_inv in E'; destruct E' as [_ ->]
                  | idtac ]);
    unfold freetype_Face in *; cbn [path] in *;
    repeat match goal with
           | T : (if ?c then _ else _) = Ok _ |- _ =>
               destruct c; [injection T as <- | discriminate T]
           end;
    unfold Image_new_checked, getink in *;
    match goal with
    | T : bind (if ?c then _ else _) _ = Ok _ |- _ =>
        destruct c; [cbn [bind] in T; injection T as <- | discriminate T]
    end;
    injection E as <-; unfold built; rewrite EF; reflexivity.
Qed.

Lemma init_built (a : Args) (fontSize0 : Z) :
  negotiate H a (range 8 64) (a_fontSize a) = Ok fontSize0 ->
  truetype_ok H (a_fontName a) fontSize0 = true ->
  truetype_ok H (a_boldFontName a) fontSize0 = true ->
  truetype_ok H (a_italicsFontName a) fontSize0 = true ->
  truetype_ok H (a_boldItalicsFontName a) fontSize0 = true ->
  face_ok H (a_fontName a) = true ->
  face_ok H (a_boldFontName a) = true ->
  face_ok H (a_italicsFontName a) = true ->
  face_ok H (a_boldItalicsFontName a) = true ->
  getrgb_ok H (a_bgDefaultColor a) = true ->
  __init__ H a = Ok (built H a fontSize0).
Proof.
  intros N T1 T2 T3 T4 F1 F2 F3 F4 C.
  unfold __init__, built, truetype, freetype_Face, Image_new_checked, getink.
  rewrite N. cbn [bind path].
  rewrite T1, T2, T3, T4. cbn [bind path].
  rewrite F1, F2, F3, F4, C. cbn [bind].
  destruct (a_antialiasing a >? 1); reflexivity.
Qed.

Lemma negotiate_Err (a : Args) (candidates : list Z) (fontSize0 : Z)
  (e : exn) :
  negotiate H a candidates fontSize0 = Err e -> e = OSError (a_fontName a).
Proof.
  induction candidates as [| i rest IH]; cbn [negotiate]; intros E.
  - discriminate E.
  - unfold truetype in E. destruct (truetype_ok H (a_fontName a) i);
      cbn [bind] in E.
    + destruct (overflows H a _); [discriminate E | apply IH; exact E].
    + injection E as <-. reflexivity.
Qed.

(** The exceptions that leave [__init__]. *)
Lemma init_Err_kinds (a : Args) (e : exn) :
  __init__ H a = Err e ->
  (exists file, e = OSError file) \/
  (exists file, e = FT_Exception file) \/
  e = ValueError (a_bgDefaultColor a).
Proof.
  unfold __init__. intros E.
  destruct (a_antialiasing a >? 1);
    (apply bind_Err_inv in E; destruct E as [E | [fs [_ E]]];
     [left; eexists; eapply negotiate_Err; exact E |]);
    unfold truetype, freetype_Face, Image_new_checked, getink in E;
    repeat match type of E with
           | bind (if ?c then _ else _) _ = Err _ =>
               destruct c; cbn [bind path] in E
           | bind (bind (if ?c then _ else _) _) _ = Err _ =>
               destruct c; cbn [bind path] in E
           end;
    try (injection E as <-);
    try discriminate E;
    try (left; eexists; reflexivity);
    try (right; left; eexists; reflexivity);
    try (right; right; reflexivity).
Qed.

(** Without an overflow the loop loads the normal font at every
    candidate. *)
Lemma negotiate_Ok_open (a : Args) (fontSize0 : Z) (n : nat) :
  forall (lo r : Z),
  negotiate H a (range_from lo n) fontSize0 = Ok r ->
  (forall j, lo <= j < lo + Z.of_nat n ->
     overflows H a (mkFont (a_fontName a) j) = false) ->
  forall j, lo <= j < lo + Z.of_nat n ->
    truetype_ok H (a_fontName a) j = true.
Proof.
  induction n as [| n IH]; intros lo r E Hnone j Hj.
  - lia.
  - cbn [range_from negotiate] in E. bind_inv E.
    apply truetype_Ok_inv in Ea0. destruct Ea0 as [Hopen ->].
    rewrite Hnone in E by lia.
    destruct (Z.eq_dec j lo) as [-> | Hne]; [exact Hopen |].
    apply (IH (lo + 1) r E); [intros j' Hj'; apply Hnone; lia | lia].
Qed.

(** What a successful construction has loaded. *)
Lemma init_Ok_loads (a : Args) (self : tty2img) :
  __init__ H a = Ok self ->
  exists fontSize0,
    negotiate H a (range 8 64) (a_fontSize a) = Ok fontSize0 /\
    truetype_ok H (a_fontName a) fontSize0 = true /\
    truetype_ok H (a_boldFontName a) fontSize0 = true /\
    truetype_ok H (a_italicsFontName a) fontSize0 = true /\
    truetype_ok H (a_boldItalicsFontName a) fontSize0 = true /\
    face_ok H (a_fontName a) = true /\
    face_ok H (a_boldFontName a) = true /\
    face_ok H (a_italicsFontName a) = true /\
    face_ok H (a_boldItalicsFontName a) = true /\
    getrgb_ok H (a_bgDefaultColor a) = true.
Proof.
  unfold __init__. intros E.
  assert (E' : exists fs,
            negotiate H a (range 8 64) (a_fontSize a) = Ok fs /\
            exists n b i bi nf bf itf bif im,
              truetype H (a_fontName a) fs = Ok n /\
              truetype H (a_boldFontName a) fs = Ok b /\
              truetype H (a_italicsFontName a) fs = Ok i /\
              truetype H (a_boldItalicsFontName a) fs = Ok bi /\
              freetype_Face H (path n) = Ok nf /\
              freetype_Face H (path b) = Ok bf /\
              freetype_Face H (path i) = Ok itf /\
              freetype_Face H (path bi) = Ok bif /\
              Image_new_checked H "RGBA" 1920 1080 (a_bgDefaultColor a) = Ok im).
  { destruct (a_antialiasing a >? 1);
      apply bind_Ok_inv in E; destruct E as [fs [N E]];
      exists fs; (split; [exact N |]);
      apply bind_Ok_inv in E; destruct E as [n [T1 E]];
      apply bind_Ok_inv in E; destruct E as [b [T2 E]];
      apply bind_Ok_inv in E; destruct E as [i [T3 E]];
      apply bind_Ok_inv in E; destruct E as [bi [T4 E]];
      apply bind_Ok_inv in E; destruct E as [nf [F1 E]];
      apply bind_Ok_inv in E; destruct E as [bf [F2 E]];
      apply bind_Ok_inv in E; destruct E as [itf [F3 E]];
      apply bind_Ok_inv in E; destruct E as [bif [F4 E]];
      apply bind_Ok_inv in E; destruct E as [im [C E]];
      exists n, b, i, bi, nf, bf, itf, bif, im; repeat split; assumption. }
  destruct E' as [fs [N [n [b [i [bi [nf [bf [itf [bif [im
    [T1 [T2 [T3 [T4 [F1 [F2 [F3 [F4 C]]]]]]]]]]]]]]]]]]].
  exists fs. split; [exact N |].
  apply truetype_Ok_inv in T1, T2, T3, T4.
  destruct T1 as [T1 ->], T2 as [T2 ->], T3 as [T3 ->], T4 as [T4 ->].
  cbn [path] in F1, F2, F3, F4.
  unfold freetype_Face in F1, F2, F3, F4.
  unfold Image_new_checked, getink in C.
  destruct (face_ok H (a_fontName a)); [| discriminate F1].
  destruct (face_ok H (a_boldFontName a)); [| discriminate F2].
  destruct (face_ok H (a_italicsFontName a)); [| discriminate F3].
  destruct (face_ok H (a_boldItalicsFontName a)); [| discriminate F4].
  destruct (getrgb_ok H (a_bgDefaultColor a)); [| discriminate C].
  repeat split; assumption.
Qed.

(** ** Glyph resolution *)

Lemma fallback_search_nonneg (g : Globals) (self : tty2img)
  (families : list string) (f : Font) (extraWidth : Z) :
  fallback_search H g self families = Ok (Some (f, extraWidth)) ->
  0 <= extraWidth.
Proof.
  induction families as [| fname rest IH]; simpl; intros E.
  - discriminate E.
  - bind_inv E. bind_inv E. bind_inv E.
    destruct (a fname a1) as [| ff files].
    + apply IH. exact E.
    + bind_inv E. bind_inv E. bind_inv E.
      injection E as _ Eew. subst extraWidth. apply Z.le_max_l.
Qed.

Lemma memofont_in_nonneg (g : Globals) (self : tty2img) (font0 : Font)
  (font1 : option Face) (char : string) (extraWidth : Z) (font : FontPair)
  (log : list string) :
  memofont_in H g self font0 font1 char = Ok (extraWidth, font, log) ->
  0 <= extraWidth.
Proof.
  unfold memofont_in. intros E. bind_inv E. bind_inv E.
  destruct (a0 =? 0).
  - bind_inv E. bind_inv E. destruct a2 as [[f ew] |].
    + injection E as Eew _ _. subst ew.
      eapply fallback_search_nonneg. exact Ea2.
    + bind_inv E. destruct a2.
      * bind_inv E. bind_inv E. injection E as Eew _ _. lia.
      * injection E as Eew _ _. lia.
  - injection E as Eew _ _. lia.
Qed.

(** With the globals of the module, a character the face covers resolves
    to the font it was asked in, with no extra width. *)
Lemma memofont_covered (self : tty2img) (font0 : Font) (face : Face)
  (char : string) :
  get_char_index H face char <> 0 ->
  memofont H self font0 (Some face) char = Ok (0, (font0, Some face)).
Proof.
  intros Hc. unfold memofont, memofont_in, face_get_char_index. cbn [bind].
  destruct (hex_ord H char) eqn:Eo.
  - cbn [bind].
    destruct (Z.eqb_spec (get_char_index H face char) 0) as [E | _].
    + contradiction.
    + reflexivity.
  - exfalso. apply Hc. apply get_char_index_ord. exact Eo.
Qed.

(** With the globals of the module, a character the face does not cover
    stops the call at the first name that is not defined. *)
Lemma memofont_not_covered (self : tty2img) (font0 : Font) (face : Face)
  (char : string) :
  hex_ord H char <> None ->
  get_char_index H face char = 0 ->
  memofont H self font0 (Some face) char = Err (NameError "fallbackFonts").
Proof.
  intros Ho Hc. unfold memofont, memofont_in, face_get_char_index.
  cbn [bind]. destruct (hex_ord H char); [| contradiction].
  cbn [bind]. rewrite Hc. reflexivity.
Qed.

(** A string that is not one character stops the call in freetype. *)
Lemma memofont_not_char (self : tty2img) (font0 : Font) (face : Face)
  (char : string) :
  hex_ord H char = None ->
  memofont H self font0 (Some face) char = Err TypeError.
Proof.
  intros Ho. unfold memofont, memofont_in, face_get_char_index.
  cbn [bind]. rewrite Ho. reflexivity.
Qed.

(** Whatever [memofont] returns, it is the font it was given and no extra
    width. *)
Lemma memofont_Ok_inv (self : tty2img) (font0 : Font) (font1 : option Face)
  (char : string) (extraWidth : Z) (font : FontPair) :
  memofont H self font0 font1 char = Ok (extraWidth, font) ->
  extraWidth = 0 /\ font = (font0, font1).
Proof.
  unfold memofont, memofont_in, face_get_char_index.
  destruct font1 as [face |]; cbn [bind].
  - destruct (hex_ord H char); cbn [bind rmap]; [| intros E; discriminate E].
    destruct (get_char_index H face char =? 0); simpl; intros E.
    + discriminate E.
    + injection E as E1 E2. subst. split; reflexivity.
  - intros E. discriminate E.
Qed.

(** ** Colours *)

Lemma cell_colors_eq (self : tty2img) (screen : pyte.Screen) (line char : Z)
  (cData : pyte.Char) :
  cell_colors self screen line char cData =
  effective_colors self screen line char cData.
Proof.
  unfold cell_colors, effective_colors, is_cursor_cell, with_defaults,
    swap_colors, id.
  destruct (pyte.bg cData =? "default")%string;
    destruct (pyte.fg cData =? "default")%string;
    destruct (pyte.reverse cData);
    destruct (showCursor self && (line =? pyte.y (pyte.cursor screen))
              && (char =? pyte.x (pyte.cursor screen)));
    reflexivity.
Qed.

(** ** Drawing one cell *)

Lemma draw_rectangle_app (ops : list DrawOp) (x0 y0 x1 y1 : Z) (fill : string) :
  draw_rectangle H ops x0 y0 x1 y1 fill =
  rmap (app ops) (draw_rectangle H [] x0 y0 x1 y1 fill).
Proof. unfold draw_rectangle, getink. destruct (getrgb_ok H fill); reflexivity. Qed.

Lemma draw_line_app (ops : list DrawOp) (x0 y0 x1 y1 : Z) (fill : string) :
  draw_line H ops x0 y0 x1 y1 fill =
  rmap (app ops) (draw_line H [] x0 y0 x1 y1 fill).
Proof. unfold draw_line, getink. destruct (getrgb_ok H fill); reflexivity. Qed.

Lemma draw_text_app (ops : list DrawOp) (x y : Z) (s fill : string) (font : Font) :
  draw_text H ops x y s fill font =
  rmap (app ops) (draw_text H [] x y s fill font).
Proof. unfold draw_text, getink. destruct (getrgb_ok H fill); reflexivity. Qed.

(** The calls a cell adds do not depend on what was drawn before. *)
Lemma draw_cell_app (self : tty2img) (screen : pyte.Screen) (line char : Z)
  (cData : pyte.Char) (point0 point1 : Z) (ops : list DrawOp) :
  draw_cell H self screen line char cData point0 point1 ops =
  rmap (fun r => (fst r, ops ++ snd r))
    (draw_cell H self screen line char cData point0 point1 []).
Proof.
  unfold draw_cell.
  destruct (cell_colors self screen line char cData) as [bgColor fgColor].
  destruct (_convertColor H bgColor) as [bg' |]; [simpl | reflexivity].
  destruct (_convertColor H fgColor) as [fg' |]; [simpl | reflexivity].
  unfold draw_rectangle, draw_line, draw_text, getink.
  destruct (negb (bg' =? bgDefaultColor self)%string);
    destruct (getrgb_ok H bg'); simpl; try reflexivity;
    destruct (memofont H self _ _ _) as [[ew font] |]; simpl; try reflexivity;
    destruct (pyte.underscore cData); destruct (pyte.strikethrough cData);
    destruct (getrgb_ok H fg'); simpl; try reflexivity;
    rewrite <- ?app_assoc; reflexivity.
Qed.

(** Drawn further right by [dx], a cell makes the same calls moved by
    [dx], or raises the same exception. *)
Lemma draw_cell_shift (self : tty2img) (screen : pyte.Screen) (line char : Z)
  (cData : pyte.Char) (point0 point1 dx : Z) :
  draw_cell H self screen line char cData (point0 + dx) point1 [] =
  rmap (fun r => (fst r + dx, map (shift_op dx) (snd r)))
    (draw_cell H self screen line char cData point0 point1 []).
Proof.
  unfold draw_cell.
  destruct (cell_colors self screen line char cData) as [bgColor fgColor].
  destruct (_convertColor H bgColor) as [bg' |]; [simpl | reflexivity].
  destruct (_convertColor H fgColor) as [fg' |]; [simpl | reflexivity].
  unfold draw_rectangle, draw_line, draw_text, getink.
  destruct (negb (bg' =? bgDefaultColor self)%string);
    destruct (getrgb_ok H bg'); simpl; try reflexivity;
    destruct (memofont H self _ _ _) as [[ew font] |]; simpl; try reflexivity;
    destruct (pyte.underscore cData); destruct (pyte.strikethrough cData);
    destruct (getrgb_ok H fg'); simpl; try reflexivity;
    repeat (f_equal; try lia).
Qed.

(** A cell that is drawn moves the pen by exactly one cell width: with the
    globals of the module [memofont] returns no extra width. *)
Lemma draw_cell_advance (self : tty2img) (screen : pyte.Screen) (line char : Z)
  (cData : pyte.Char) (point0 point1 : Z) (ops : list DrawOp)
  (point0' : Z) (ops' : list DrawOp) :
  draw_cell H self screen line char cData point0 point1 ops = Ok (point0', ops') ->
  point0' = point0 + charWidth self.
Proof.
  unfold draw_cell.
  destruct (cell_colors self screen line char cData) as [bgColor fgColor].
  intros E. bind_inv E. bind_inv E. bind_inv E. bind_inv E.
  destruct a2 as [ew font]. apply memofont_Ok_inv in Ea2. destruct Ea2 as [-> _].
  bind_inv E. bind_inv E. bind_inv E. injection E as E _. lia.
Qed.

(** ** The loop over the columns *)

Lemma render_char_app (self : tty2img) (screen : pyte.Screen) (line : Z)
  (row : list (Z * pyte.Char)) (point1 point0 lchar : Z) (ops : list DrawOp)
  (char : Z) :
  render_char H self screen line row point1 (point0, lchar, ops) char =
  rmap (after ops)
    (render_char H self screen line row point1 (point0, lchar, []) char).
Proof.
  unfold render_char.
  destruct (getitem row char) as [cData |]; [simpl | reflexivity].
  destruct (pyte.data cData =? EmptyString)%string.
  - simpl. rewrite app_nil_r. reflexivity.
  - rewrite draw_cell_app.
    destruct (draw_cell H self screen line char cData _ point1 [])
      as [[p o] |]; reflexivity.
Qed.

Lemma render_char_shift (self : tty2img) (screen : pyte.Screen) (line : Z)
  (row : list (Z * pyte.Char)) (point1 point0 lchar dx : Z) (char : Z) :
  render_char H self screen line row point1 (point0 + dx, lchar, []) char =
  rmap (shifted dx)
    (render_char H self screen line row point1 (point0, lchar, []) char).
Proof.
  unfold render_char.
  destruct (getitem row char) as [cData |]; [simpl | reflexivity].
  destruct (pyte.data cData =? EmptyString)%string.
  - simpl. do 3 f_equal. lia.
  - replace (point0 + dx + charWidth self * (char - lchar - 1))
      with (point0 + charWidth self * (char - lchar - 1) + dx) by lia.
    rewrite draw_cell_shift.
    destruct (draw_cell H self screen line char cData _ point1 [])
      as [[p o] |]; reflexivity.
Qed.

(** The body reads [point[0]] and [lchar] only through the position the
    gap rule gives to the column. *)
Lemma render_char_gap (self : tty2img) (screen : pyte.Screen) (line : Z)
  (row : list (Z * pyte.Char)) (point1 p l p' l' : Z) (ops : list DrawOp)
  (char : Z) :
  p + charWidth self * (char - l - 1) = p' + charWidth self * (char - l' - 1) ->
  render_char H self screen line row point1 (p, l, ops) char =
  render_char H self screen line row point1 (p', l', ops) char.
Proof.
  intros E. unfold render_char. rewrite E. reflexivity.
Qed.

Lemma render_char_ext (self : tty2img) (screen : pyte.Screen) (line : Z)
  (row row' : list (Z * pyte.Char)) (point1 : Z) (st : Z * Z * list DrawOp)
  (char : Z) :
  lookup char row = lookup char row' ->
  render_char H self screen line row point1 st char =
  render_char H self screen line row' point1 st char.
Proof.
  intros E. unfold render_char, getitem. rewrite E. reflexivity.
Qed.

Lemma render_chars_app (self : tty2img) (screen : pyte.Screen) (line : Z)
  (row : list (Z * pyte.Char)) (point1 : Z) (columns : list Z) :
  forall (point0 lchar : Z) (ops : list DrawOp),
  render_chars H self screen line row point1 (point0, lchar, ops) columns =
  rmap (after ops)
    (render_chars H self screen line row point1 (point0, lchar, []) columns).
Proof.
  unfold render_chars.
  induction columns as [| c rest IH]; intros point0 lchar ops; cbn [foldM].
  - simpl. rewrite app_nil_r. reflexivity.
  - rewrite render_char_app.
    destruct (render_char H self screen line row point1 (point0, lchar, []) c)
      as [[[p l] o] |]; simpl; [| reflexivity].
    rewrite IH. rewrite (IH p l o).
    destruct (foldM _ (p, l, []) rest) as [[[p2 l2] o2] |]; simpl;
      [| reflexivity].
    rewrite app_assoc. reflexivity.
Qed.

Lemma render_chars_shift (self : tty2img) (screen : pyte.Screen) (line : Z)
  (row : list (Z * pyte.Char)) (point1 dx : Z) (columns : list Z) :
  forall (point0 lchar : Z),
  render_chars H self screen line row point1 (point0 + dx, lchar, []) columns =
  rmap (shifted dx)
    (render_chars H self screen line row point1 (point0, lchar, []) columns).
Proof.
  induction columns as [| c rest IH]; intros point0 lchar.
  - reflexivity.
  - unfold render_chars in *. cbn [foldM]. rewrite render_char_shift.
    destruct (render_char H self screen line row point1 (point0, lchar, []) c)
      as [[[p l] o] |]; simpl; [| reflexivity].
    pose proof (render_chars_app self screen line row point1 rest) as A.
    unfold render_chars in A.
    rewrite A. rewrite IH. rewrite (A p l o).
    destruct (foldM _ (p, l, []) rest) as [[[p2 l2] o2] |]; simpl;
      [| reflexivity].
    rewrite map_app. reflexivity.
Qed.

Lemma render_chars_ext (self : tty2img) (screen : pyte.Screen) (line : Z)
  (row row' : list (Z * pyte.Char)) (point1 : Z) (columns : list Z) :
  (forall c, In c columns -> lookup c row = lookup c row') ->
  forall st,
  render_chars H self screen line row point1 st columns =
  render_chars H self screen line row' point1 st columns.
Proof.
  unfold render_chars.
  induction columns as [| c rest IH]; intros Hl st; cbn [foldM].
  - reflexivity.
  - rewrite (render_char_ext self screen line row row' point1 st c)
      by (apply Hl; left; reflexivity).
    destruct (render_char H self screen line row' point1 st c); simpl;
      [| reflexivity].
    apply IH. intros c' Hc'. apply Hl. right. exact Hc'.
Qed.

Lemma render_chars_cons (self : tty2img) (screen : pyte.Screen) (line : Z)
  (row : list (Z * pyte.Char)) (point1 : Z) (c : Z) (rest : list Z)
  (st : Z * Z * list DrawOp) :
  render_chars H self screen line row point1 st (c :: rest) =
  (st' <- render_char H self screen line row point1 st c ;;
   render_chars H self screen line row point1 st' rest).
Proof. reflexivity. Qed.

Lemma render_chars_single (self : tty2img) (screen : pyte.Screen) (line : Z)
  (row : list (Z * pyte.Char)) (point1 : Z) (c : Z)
  (st : Z * Z * list DrawOp) :
  render_chars H self screen line row point1 st [c] =
  render_char H self screen line row point1 st c.
Proof.
  unfold render_chars. cbn [foldM].
  destruct (render_char H self screen line row point1 st c); reflexivity.
Qed.

Lemma render_chars_cat (self : tty2img) (screen : pyte.Screen) (line : Z)
  (row : list (Z * pyte.Char)) (point1 : Z) (c1 c2 : list Z) :
  forall st,
  render_chars H self screen line row point1 st (c1 ++ c2) =
  (st' <- render_chars H self screen line row point1 st c1 ;;
   render_chars H self screen line row point1 st' c2).
Proof.
  unfold render_chars.
  induction c1 as [| c rest IH]; intros st; cbn [foldM app].
  - reflexivity.
  - destruct (render_char H self screen line row point1 st c); simpl;
      [apply IH | reflexivity].
Qed.

Lemma render_char_lchar (self : tty2img) (screen : pyte.Screen) (line : Z)
  (row : list (Z * pyte.Char)) (point1 : Z) (st st' : Z * Z * list DrawOp)
  (char : Z) :
  render_char H self screen line row point1 st char = Ok st' ->
  snd (fst st') = char.
Proof.
  unfold render_char. destruct st as [[p l] o]. intros E. bind_inv E.
  destruct (pyte.data a =? EmptyString)%string.
  - injection E as <-. reflexivity.
  - bind_inv E. destruct a0 as [p' o']. injection E as <-. reflexivity.
Qed.

(** ** Blank cells *)

(** When the normal face covers the space and PIL accepts the two default
    colours, a blank cell is drawn wherever it stands, cursor or not. *)
Lemma blank_draws (self : tty2img) (screen : pyte.Screen) (face : Face)
  (bg' fg' : string) (line char point0 point1 : Z) :
  snd (normalFont self) = Some face ->
  get_char_index H face " " <> 0 ->
  _convertColor H (bgDefaultColor self) = Ok bg' ->
  _convertColor H (fgDefaultColor self) = Ok fg' ->
  getrgb_ok H bg' = true ->
  getrgb_ok H fg' = true ->
  exists o,
    draw_cell H self screen line char pyte.blank point0 point1 [] =
    Ok (point0 + charWidth self, o).
Proof.
  intros Hface Hcov Hbg Hfg Kbg Kfg.
  unfold draw_cell, cell_colors, select_font. cbn [pyte.blank pyte.bg pyte.fg
    pyte.reverse pyte.bold pyte.italics pyte.underscore pyte.strikethrough
    pyte.data String.eqb Ascii.eqb Bool.eqb negb andb].
  destruct (normalFont self) as [font0 font1]. simpl in Hface. subst font1.
  cbn [fst snd].
  rewrite (memofont_covered self font0 face " " Hcov).
  unfold draw_rectangle, draw_text, getink.
  destruct (showCursor self && (line =? pyte.y (pyte.cursor screen))
            && (char =? pyte.x (pyte.cursor screen)));
    rewrite Hbg, Hfg; cbn [bind];
    match goal with
    | |- context [negb ?b] => destruct (negb b)
    end;
    rewrite ?Kbg, ?Kfg; cbn [bind]; rewrite Z.add_0_r; eexists; reflexivity.
Qed.

(** A cell with a character that can be drawn: the step of the loop in
    closed form. *)
Lemma render_char_drawn (self : tty2img) (screen : pyte.Screen) (line : Z)
  (row : list (Z * pyte.Char)) (point1 : Z) (char : Z) (cData : pyte.Char)
  (x : Z) (oc : list DrawOp) :
  lookup char row = Some cData ->
  pyte.data cData <> EmptyString ->
  draw_cell H self screen line char cData 0 point1 [] = Ok (x, oc) ->
  forall p l ops,
    render_char H self screen line row point1 (p, l, ops) char =
    Ok (p + charWidth self * (char - l - 1) + charWidth self, char,
        ops ++ map (shift_op (p + charWidth self * (char - l - 1))) oc).
Proof.
  intros Hrow Hdata Hdraw p l ops.
  unfold render_char, getitem. rewrite Hrow. cbn [bind].
  destruct (String.eqb_spec (pyte.data cData) EmptyString) as [E | _];
    [contradiction |].
  rewrite draw_cell_app.
  pose proof (draw_cell_shift self screen line char cData 0 point1
                (p + charWidth self * (char - l - 1))) as S.
  rewrite Z.add_0_l in S. rewrite S, Hdraw. cbn [rmap fst snd bind].
  apply draw_cell_advance in Hdraw. subst x.
  do 3 f_equal. lia.
Qed.

(** ** When render returns *)

Lemma draw_cell_ok (self : tty2img) (screen : pyte.Screen) (line char : Z)
  (cData : pyte.Char) (point0 point1 : Z) (ops : list DrawOp) :
  cell_ok H self cData = true ->
  pyte.data cData <> EmptyString ->
  exists r, draw_cell H self screen line char cData point0 point1 ops = Ok r.
Proof.
  unfold cell_ok. intros Hok Hdata.
  destruct (String.eqb_spec (pyte.data cData) EmptyString) as [E | _];
    [contradiction |].
  cbn [orb] in Hok. apply andb_prop in Hok. destruct Hok as [Hcol Hglyph].
  destruct (_convertColor H (fst (with_defaults self cData))) as [b |] eqn:Eb;
    [| discriminate Hcol].
  destruct (_convertColor H (snd (with_defaults self cData))) as [f |] eqn:Ef;
    [| discriminate Hcol].
  apply andb_prop in Hcol. destruct Hcol as [Kb Kf].
  destruct (select_font self cData) as [font0 font1] eqn:Esel.
  cbn [snd] in Hglyph. destruct font1 as [face |]; [| discriminate Hglyph].
  apply negb_true_iff in Hglyph. apply Z.eqb_neq in Hglyph.
  unfold draw_cell. rewrite cell_colors_eq. unfold effective_colors.
  destruct (with_defaults self cData) as [bg0 fg0]. cbn [fst snd] in Eb, Ef.
  rewrite Esel. cbn [fst snd].
  rewrite (memofont_covered self font0 face (pyte.data cData) Hglyph).
  unfold draw_rectangle, draw_line, draw_text, getink.
  destruct (is_cursor_cell self screen line char);
    destruct (pyte.reverse cData); unfold swap_colors, id; cbn [fst snd];
    rewrite Eb, Ef; cbn [bind];
    match goal with
    | |- context [negb ?c] => destruct (negb c)
    end;
    rewrite ?Kb, ?Kf; cbn [bind];
    destruct (pyte.underscore cData); rewrite ?Kb, ?Kf; cbn [bind];
    destruct (pyte.strikethrough cData); rewrite ?Kb, ?Kf; cbn [bind];
    eexists; reflexivity.
Qed.

Lemma render_chars_ok (self : tty2img) (screen : pyte.Screen) (line : Z)
  (row : list (Z * pyte.Char)) (point1 : Z) (columns : list Z) :
  (forall c, In c columns ->
     exists cData, lookup c row = Some cData /\ cell_ok H self cData = true) ->
  forall st, exists st',
    render_chars H self screen line row point1 st columns = Ok st'.
Proof.
  induction columns as [| c rest IH]; intros Hall st.
  - exists st. reflexivity.
  - rewrite render_chars_cons.
    destruct (Hall c (or_introl eq_refl)) as [cData [Hl Hok]].
    assert (exists st1, render_char H self screen line row point1 st c = Ok st1)
      as [st1 E1].
    { unfold render_char, getitem. destruct st as [[p l] o].
      rewrite Hl. cbn [bind].
      destruct (String.eqb_spec (pyte.data cData) EmptyString) as [E | Hne].
      - eexists. reflexivity.
      - destruct (draw_cell_ok self screen line c cData
                    (p + charWidth self * (c - l - 1)) point1 o Hok Hne)
          as [[p' o'] D].
        rewrite D. eexists. reflexivity. }
    rewrite E1. cbn [bind]. apply IH.
    intros c' Hc'. apply Hall. right. exact Hc'.
Qed.

Lemma render_line_ok (self : tty2img) (screen : pyte.Screen)
  (ops : list DrawOp) (line : Z) :
  screen_ok H self screen = true ->
  In line (keys (pyte.buffer screen)) ->
  exists ops', render_line H self screen ops line = Ok ops'.
Proof.
  unfold screen_ok. intros Hok Hline.
  apply andb_prop in Hok. destruct Hok as [Hcells Kfg].
  destruct (lookup_In line (pyte.buffer screen) Hline) as [row [Hl Hin]].
  rewrite forallb_forall in Hcells. specialize (Hcells _ Hin).
  cbn [snd] in Hcells. rewrite forallb_forall in Hcells.
  unfold render_line, getitem. rewrite Hl. cbn [bind].
  destruct (render_chars_ok self screen line row
              (line * charHeight self + marginSize self) (sorted (keys row)))
    with (st := (marginSize self, -1, ops)) as [[[p l] o] E].
  { intros c Hc. rewrite sorted_In in Hc.
    destruct (lookup_In c row Hc) as [cData [Hlc Hinc]].
    exists cData. split; [exact Hlc |]. apply (Hcells _ Hinc). }
  rewrite E. cbn [bind].
  destruct (showCursor self && (line =? pyte.y (pyte.cursor screen))
            && negb (contains (pyte.x (pyte.cursor screen)) row)).
  - unfold draw_rectangle, getink. rewrite Kfg. eexists. reflexivity.
  - eexists. reflexivity.
Qed.

Lemma render_lines_ok (self : tty2img) (screen : pyte.Screen)
  (lines : list Z) :
  screen_ok H self screen = true ->
  (forall l, In l lines -> In l (keys (pyte.buffer screen))) ->
  forall ops, exists ops',
    foldM (render_line H self screen) ops lines = Ok ops'.
Proof.
  intros Hok. induction lines as [| l rest IH]; intros Hin ops.
  - exists ops. reflexivity.
  - cbn [foldM].
    destruct (render_line_ok self screen ops l Hok (Hin l (or_introl eq_refl)))
      as [ops1 E1].
    rewrite E1. cbn [bind]. apply IH.
    intros l' Hl'. apply Hin. right. exact Hl'.
Qed.

Lemma screen_ok_showCursor (self : tty2img) (screen : pyte.Screen) (b : bool) :
  screen_ok H (set_showCursor self b) screen = screen_ok H self screen.
Proof. reflexivity. Qed.

End Facts.

(** * Specification statements *)

Section Layout.

Context (H : Host).

(** C10.  In every row, a populated cell whose character is the empty
    string sets [lchar] to its column, adds only the gap that leads to it,
    and draws nothing.  The columns before it are processed as if it were
    not there; from the next populated column on, every drawing call and
    the pen itself are exactly one [charWidth] further left than in the
    same row without that cell. *)
Theorem empty_cell_pulls_row_left (self : tty2img) (screen : pyte.Screen)
  (line point1 k : Z) (e : pyte.Char) (row1 row2 : list (Z * pyte.Char)) :
  pyte.data e = EmptyString ->
  ~ In k (keys (row1 ++ row2)) ->
  let row := row1 ++ row2 in
  let row' := row1 ++ (k, e) :: row2 in
  let cw := charWidth self in
  exists pre post,
    sorted (keys row) = pre ++ post /\
    sorted (keys row') = pre ++ k :: post /\
    (forall j, In j pre -> j < k) /\
    (forall j, In j post -> k < j) /\
    (forall p l ops,
       render_char H self screen line row' point1 (p, l, ops) k =
       Ok (p + cw * (k - l - 1), k, ops)) /\
    (forall st,
       render_chars H self screen line row' point1 st pre =
       render_chars H self screen line row point1 st pre) /\
    (forall p l ops,
       post <> [] ->
       render_chars H self screen line row' point1 (p, l, ops) (k :: post) =
       rmap (fun st => after ops (shifted (- cw) st))
         (render_chars H self screen line row point1 (p, l, []) post)).
Proof.
  intros He Hk row row' cw.
  destruct (insert_split k (sorted (keys row))) as [pre [post [E1 [E2 [Hpre Hpost]]]]].
  { apply sorted_StronglySorted. }
  { rewrite sorted_In. exact Hk. }
  assert (Estep : forall p l ops,
    render_char H self screen line row' point1 (p, l, ops) k =
    Ok (p + cw * (k - l - 1), k, ops)).
  { intros p l ops. unfold render_char, getitem, row'.
    rewrite lookup_added by exact Hk. simpl. rewrite He. reflexivity. }
  assert (Eext : forall cols, ~ In k cols -> forall st,
    render_chars H self screen line row' point1 st cols =
    render_chars H self screen line row point1 st cols).
  { intros cols Hc st. apply render_chars_ext. intros c Hin.
    apply lookup_other. intros ->. contradiction. }
  exists pre, post. split; [exact E1 |]. split.
  { unfold row', row, keys in *. rewrite map_app. simpl.
    rewrite sorted_middle, <- map_app. exact E2. }
  split; [exact Hpre |]. split; [exact Hpost |]. split; [exact Estep |].
  split.
  { intros st. apply Eext. intros Hin. apply Hpre in Hin. lia. }
  intros p l ops Hne.
  destruct post as [| j rest]; [contradiction |].
  rewrite render_chars_cons, Estep. cbn [bind].
  rewrite Eext.
  2:{ intros Hin. apply Hpost in Hin. lia. }
  rewrite render_chars_app.
  assert (Egap : forall p1 l1 p2 l2,
    p1 + cw * (j - l1 - 1) = p2 + cw * (j - l2 - 1) ->
    render_chars H self screen line row point1 (p1, l1, []) (j :: rest) =
    render_chars H self screen line row point1 (p2, l2, []) (j :: rest)).
  { intros p1 l1 p2 l2 E. rewrite !render_chars_cons.
    rewrite (render_char_gap H self screen line row point1 p1 l1 p2 l2 [] j E).
    reflexivity. }
  rewrite (Egap (p + cw * (k - l - 1)) k (p + cw * (j - l - 1) + - cw) (j - 1))
    by lia.
  rewrite render_chars_shift.
  rewrite (Egap (p + cw * (j - l - 1)) (j - 1) p l) by lia.
  destruct (render_chars H self screen line row point1 (p, l, []) (j :: rest))
    as [[[p2 l2] o2] |]; reflexivity.
Qed.

(** C8.  A row with columns 0 and 5 populated, and the same row with
    blank cells (a space in the default colours) at columns 1 to 4: in both,
    column 5 is processed with the pen four cell widths right of where
    column 0 left it and no gap to add, and what it draws is added to what
    was drawn before.  The rows differ by the calls of the four blanks.
    The blanks must be drawable: the normal face covers the space and PIL
    accepts the default colours. *)
Theorem gap_equals_blank_cells (self : tty2img) (screen : pyte.Screen)
  (face : Face) (bg' fg' : string) (line point1 : Z) (c0 c5 : pyte.Char) :
  snd (normalFont self) = Some face ->
  get_char_index H face " " <> 0 ->
  _convertColor H (bgDefaultColor self) = Ok bg' ->
  _convertColor H (fgDefaultColor self) = Ok fg' ->
  getrgb_ok H bg' = true ->
  getrgb_ok H fg' = true ->
  let rowA := [(0, c0); (5, c5)] in
  let rowB := [(0, c0); (1, pyte.blank); (2, pyte.blank); (3, pyte.blank);
               (4, pyte.blank); (5, c5)] in
  let cw := charWidth self in
  let column0 ops :=
    render_char H self screen line rowA point1 (marginSize self, -1, ops) 0 in
  let column5 point0 :=
    render_char H self screen line rowA point1 (point0, 4, []) 5 in
  exists blanks : Z -> list DrawOp,
  forall ops,
    render_chars H self screen line rowA point1
      (marginSize self, -1, ops) (sorted (keys rowA)) =
    ('(p, _, o) <- column0 ops ;;
     rmap (after o) (column5 (p + 4 * cw)))
    /\
    render_chars H self screen line rowB point1
      (marginSize self, -1, ops) (sorted (keys rowB)) =
    ('(p, _, o) <- column0 ops ;;
     rmap (after (o ++ blanks p)) (column5 (p + 4 * cw))).
Proof.
  intros Hface Hcov Hbg Hfg Kbg Kfg rowA rowB cw column0 column5.
  destruct (blank_draws H self screen face bg' fg' line 1 0 point1
              Hface Hcov Hbg Hfg Kbg Kfg) as [o1 D1].
  destruct (blank_draws H self screen face bg' fg' line 2 0 point1
              Hface Hcov Hbg Hfg Kbg Kfg) as [o2 D2].
  destruct (blank_draws H self screen face bg' fg' line 3 0 point1
              Hface Hcov Hbg Hfg Kbg Kfg) as [o3 D3].
  destruct (blank_draws H self screen face bg' fg' line 4 0 point1
              Hface Hcov Hbg Hfg Kbg Kfg) as [o4 D4].
  assert (Hblank : pyte.data pyte.blank <> EmptyString) by discriminate.
  exists (fun p =>
    map (shift_op p) o1 ++ map (shift_op (p + cw)) o2 ++
    map (shift_op (p + 2 * cw)) o3 ++ map (shift_op (p + 3 * cw)) o4).
  intros ops. unfold column0, column5. split.
  - change (sorted (keys rowA)) with [0; 5].
    rewrite render_chars_cons.
    destruct (render_char H self screen line rowA point1
                (marginSize self, -1, ops) 0) as [[[p l] o] |] eqn:E0;
      cbn [bind]; [| reflexivity].
    apply render_char_lchar in E0. simpl in E0. subst l.
    rewrite render_chars_single.
    rewrite (render_char_gap H self screen line rowA point1 p 0 (p + 4 * cw) 4 o 5)
      by (fold cw; lia).
    rewrite render_char_app.
    destruct (render_char H self screen line rowA point1 (p + 4 * cw, 4, []) 5);
      reflexivity.
  - change (sorted (keys rowB)) with [0; 1; 2; 3; 4; 5].
    rewrite render_chars_cons.
    rewrite (render_char_ext H self screen line rowB rowA point1 _ 0 eq_refl).
    destruct (render_char H self screen line rowA point1
                (marginSize self, -1, ops) 0) as [[[p l] o] |] eqn:E0;
      cbn [bind]; [| reflexivity].
    apply render_char_lchar in E0. simpl in E0. subst l.
    rewrite render_chars_cons.
    rewrite (render_char_drawn H self screen line rowB point1 1 pyte.blank
               _ o1 eq_refl Hblank D1). cbn [bind].
    rewrite render_chars_cons.
    rewrite (render_char_drawn H self screen line rowB point1 2 pyte.blank
               _ o2 eq_refl Hblank D2). cbn [bind].
    rewrite render_chars_cons.
    rewrite (render_char_drawn H self screen line rowB point1 3 pyte.blank
               _ o3 eq_refl Hblank D3). cbn [bind].
    rewrite render_chars_cons.
    rewrite (render_char_drawn H self screen line rowB point1 4 pyte.blank
               _ o4 eq_refl Hblank D4). cbn [bind].
    rewrite render_chars_single.
    rewrite (render_char_ext H self screen line rowB rowA point1 _ 5 eq_refl).
    fold cw.
    replace (p + cw * (1 - 0 - 1)) with p by lia.
    replace (p + cw + cw * (2 - 1 - 1)) with (p + cw) by lia.
    replace (p + cw + cw + cw * (3 - 2 - 1)) with (p + 2 * cw) by lia.
    replace (p + 2 * cw + cw + cw * (4 - 3 - 1)) with (p + 3 * cw) by lia.
    replace (p + 3 * cw + cw) with (p + 4 * cw) by lia.
    rewrite render_char_app. rewrite <- !app_assoc.
    destruct (render_char H self screen line rowA point1 (p + 4 * cw, 4, []) 5);
      reflexivity.
Qed.

End Layout.

Section Construction.

Context (H : Host).

(** C1.  The candidate sizes are tried upwards from 8; each is judged on
    the normal font loaded at that size, by the width of [X] times the
    columns and the sum of ascent, descent and line spacing times the
    lines, each plus two margins, against 1920 and 1080.  When [i] is the
    first candidate that exceeds either bound, a constructed instance has
    its four fonts loaded at size [i], and its cell metrics read from the
    normal font at that size. *)
Theorem negotiation_adopts_first_overflow (a : Args) (self : tty2img) (i : Z) :
  8 <= i < 64 ->
  overflows H a (mkFont (a_fontName a) i) = true ->
  (forall j, 8 <= j < i -> overflows H a (mkFont (a_fontName a) j) = false) ->
  __init__ H a = Ok self ->
  (forall j, In j (range 8 64) <-> 8 <= j < 64) /\
  hd_error (range 8 64) = Some 8 /\
  (forall f,
     overflows H a f =
     let charWidth := fst (getsize H f "X") in
     let charHeight :=
       fst (getmetrics H f) + snd (getmetrics H f) + a_lineSpace a in
     (charWidth * pyte.columns (a_screen a) + 2 * a_marginSize a >? 1920)
     || (charHeight * pyte.lines (a_screen a) + 2 * a_marginSize a >? 1080)) /\
  negotiate H a (range 8 64) (a_fontSize a) = Ok i /\
  fst (normalFont self) = mkFont (a_fontName a) i /\
  fst (boldFont self) = mkFont (a_boldFontName a) i /\
  fst (italicsFont self) = mkFont (a_italicsFontName a) i /\
  fst (boldItalicsFont self) = mkFont (a_boldItalicsFontName a) i /\
  charWidth self = fst (getsize H (mkFont (a_fontName a) i) "X").
Proof.
  intros Hi Hov Hbelow Hinit.
  apply init_Ok_inv in Hinit. destruct Hinit as [fs [Hneg ->]].
  assert (fs = i) as ->
    by (apply (first_overflow_adopted H a fs i Hi Hov Hbelow Hneg)).
  split; [intros j; apply range_In |].
  split; [reflexivity |]. split; [reflexivity |]. split; [exact Hneg |].
  repeat split.
Qed.

(** C3, as the code has it.  When no candidate from 8 to 63 exceeds the
    bounds, the loop ends without raising and the [fontSize] argument is
    kept.  If the font files open and PIL accepts the background colour,
    construction succeeds, with the four fonts loaded at that size.  If
    not, construction fails, and the exception is the one of the load:
    [OSError] for a font file, freetype's for a face, [ValueError] for
    the colour. *)
Theorem no_overflow_keeps_nominal_size (a : Args) :
  (forall j, 8 <= j < 64 ->
     overflows H a (mkFont (a_fontName a) j) = false) ->
  if loads_ok H a
  then
    exists self,
      __init__ H a = Ok self /\
      size (fst (normalFont self)) = a_fontSize a /\
      size (fst (boldFont self)) = a_fontSize a /\
      size (fst (italicsFont self)) = a_fontSize a /\
      size (fst (boldItalicsFont self)) = a_fontSize a
  else
    exists e,
      __init__ H a = Err e /\
      ((exists file, e = OSError file) \/
       (exists file, e = FT_Exception file) \/
       e = ValueError (a_bgDefaultColor a)).
Proof.
  intros Hnone.
  assert (Hnominal : forall r,
            negotiate H a (range 8 64) (a_fontSize a) = Ok r ->
            r = a_fontSize a).
  { intros r Hr. unfold range in Hr. apply negotiate_Ok_inv in Hr.
    change (Z.of_nat (Z.to_nat (64 - 8))) with 56 in Hr.
    destruct Hr as [[Hr [Hov _]] | [-> _]].
    - rewrite Hnone in Hov by lia. discriminate Hov.
    - reflexivity. }
  destruct (loads_ok H a) eqn:L.
  - unfold loads_ok in L.
    do 9 (apply andb_prop in L; destruct L as [L ?]).
    assert (Hopen : forall j, 8 <= j < 64 ->
              truetype_ok H (a_fontName a) j = true).
    { intros j Hj. rewrite forallb_forall in L. apply L.
      apply range_In. exact Hj. }
    assert (Hneg : negotiate H a (range 8 64) (a_fontSize a)
                   = Ok (a_fontSize a)).
    { destruct (negotiate_total H a (a_fontSize a) (Z.to_nat (64 - 8)) 8)
        as [r Hr].
      { intros j Hj. apply Hopen.
        change (Z.of_nat (Z.to_nat (64 - 8))) with 56 in Hj. lia. }
      unfold range. rewrite Hr. f_equal. apply Hnominal. exact Hr. }
    exists (built H a (a_fontSize a)).
    split; [| repeat split].
    apply init_built; assumption.
  - destruct (__init__ H a) as [self | e] eqn:E.
    + exfalso. apply init_Ok_loads in E.
      destruct E as [fs [N [T1 [T2 [T3 [T4 [F1 [F2 [F3 [F4 C]]]]]]]]]].
      pose proof (Hnominal fs N) as ->.
      assert (Hall : forallb (truetype_ok H (a_fontName a)) (range 8 64)
                     = true).
      { apply forallb_forall. intros j Hj. apply range_In in Hj.
        unfold range in N.
        apply (negotiate_Ok_open H a (a_fontSize a) (Z.to_nat (64 - 8)) 8
                 (a_fontSize a) N);
          change (Z.of_nat (Z.to_nat (64 - 8))) with 56;
          [intros j' Hj'; apply Hnone; lia | lia]. }
      unfold loads_ok in L.
      rewrite Hall, T1, T2, T3, T4, F1, F2, F3, F4, C in L.
      discriminate L.
    + exists e. split; [reflexivity |]. apply (init_Err_kinds H). exact E.
Qed.

(** C7, as the code has it.  With an antialiasing factor above 1, the
    margin the instance draws with is the margin argument times the factor,
    the four fonts are loaded at the size the negotiation adopts (the first
    candidate that overflows), and the image returned is the 1920x1080
    canvas with the drawing on it, resized to 1920 // factor by
    1080 // factor. *)
Theorem antialiasing_scales_margin_and_output (a : Args) (self : tty2img) :
  1 < a_antialiasing a ->
  __init__ H a = Ok self ->
  marginSize self = a_marginSize a * a_antialiasing a /\
  (forall i,
     8 <= i < 64 ->
     overflows H a (mkFont (a_fontName a) i) = true ->
     (forall j, 8 <= j < i ->
        overflows H a (mkFont (a_fontName a) j) = false) ->
     size (fst (normalFont self)) = i /\
     size (fst (boldFont self)) = i /\
     size (fst (italicsFont self)) = i /\
     size (fst (boldItalicsFont self)) = i) /\
  (forall screen self' image,
     render H self screen = (self', Ok image) ->
     exists ops,
       foldM (render_line H self' screen) [] (keys (pyte.buffer screen)) = Ok ops /\
       image = Image_resize
                 (Image_drawn (Image_new "RGBA" 1920 1080 (a_bgDefaultColor a)) ops)
                 (1920 / a_antialiasing a) (1080 / a_antialiasing a)
                 "ANTIALIAS" /\
       Image_size image = (1920 / a_antialiasing a, 1080 / a_antialiasing a)).
Proof.
  intros HF Hinit.
  apply init_Ok_inv in Hinit. destruct Hinit as [fs [Hneg ->]].
  assert (EF : (a_antialiasing a >? 1) = true) by (apply Z.gtb_lt; lia).
  split.
  { unfold built. cbn [marginSize]. rewrite EF. reflexivity. }
  split.
  { intros i Hi Hov Hbelow.
    rewrite (first_overflow_adopted H a fs i Hi Hov Hbelow Hneg).
    repeat split. }
  intros screen self' image. unfold render.
  intros E. injection E as <- E.
  destruct (foldM _ [] (keys (pyte.buffer screen))) as [ops |] eqn:Eops;
    [| discriminate E].
  cbn [bind] in E. exists ops. split; [reflexivity |].
  cbn [built set_showCursor antialiasing imgWidth imgHeight base_image] in E.
  rewrite EF in E. unfold resize in E.
  destruct ((1920 / a_antialiasing a <? 1) || (1080 / a_antialiasing a <? 1));
    [discriminate E |].
  injection E as <-. split; reflexivity.
Qed.

End Construction.

Section Rendering.

Context (H : Host).

Lemma draw_rectangle_Ok_inv (ops ops' : list DrawOp) (x0 y0 x1 y1 : Z)
  (fill : string) :
  draw_rectangle H ops x0 y0 x1 y1 fill = Ok ops' ->
  ops' = ops ++ [Rectangle x0 y0 x1 y1 fill].
Proof.
  unfold draw_rectangle, getink. destruct (getrgb_ok H fill); intros E.
  - injection E as <-. reflexivity.
  - discriminate E.
Qed.

Lemma draw_line_Ok_inv (ops ops' : list DrawOp) (x0 y0 x1 y1 : Z)
  (fill : string) :
  draw_line H ops x0 y0 x1 y1 fill = Ok ops' ->
  ops' = ops ++ [Line x0 y0 x1 y1 fill].
Proof.
  unfold draw_line, getink. destruct (getrgb_ok H fill); intros E.
  - injection E as <-. reflexivity.
  - discriminate E.
Qed.

Lemma draw_text_Ok_inv (ops ops' : list DrawOp) (x y : Z) (s fill : string)
  (font : Font) :
  draw_text H ops x y s fill font = Ok ops' ->
  ops' = ops ++ [Text x y s fill font].
Proof.
  unfold draw_text, getink. destruct (getrgb_ok H fill); intros E.
  - injection E as <-. reflexivity.
  - discriminate E.
Qed.

(** C4.  The colours of a cell are the defaults substituted for the
    [default] sentinels, exchanged once if the cell has reverse video, and
    once more if the cell is under the cursor and the cursor is shown, in
    that order; a reversed cell under the cursor has its colours as
    substituted.  During [render] the cursor is shown when the instance
    says so and the screen does not hide it.  These colours, passed
    through [_convertColor], are the ones the cell is painted with. *)
Theorem colors_defaults_reverse_cursor (self : tty2img)
  (screen : pyte.Screen) (line char : Z) (cData : pyte.Char) :
  cell_colors self screen line char cData =
    (if is_cursor_cell self screen line char then swap_colors else id)
      ((if pyte.reverse cData then swap_colors else id)
         (with_defaults self cData)) /\
  (pyte.reverse cData = true ->
   is_cursor_cell self screen line char = true ->
   cell_colors self screen line char cData = with_defaults self cData) /\
  showCursor (fst (render H self screen)) =
    showCursor self && negb (pyte.hidden (pyte.cursor screen)) /\
  (forall point0 point1 ops point0' ops',
     draw_cell H self screen line char cData point0 point1 ops =
       Ok (point0', ops') ->
     exists bgColor fgColor,
       _convertColor H (fst (cell_colors self screen line char cData)) =
         Ok bgColor /\
       _convertColor H (snd (cell_colors self screen line char cData)) =
         Ok fgColor /\
       In (Text point0 point1 (pyte.data cData) fgColor
             (fst (select_font self cData))) ops' /\
       (bgColor <> bgDefaultColor self ->
        In (Rectangle point0 point1 (point0 + charWidth self)
              (point1 + charHeight self) bgColor) ops')).
Proof.
  split; [apply cell_colors_eq |]. split.
  { intros Hrev Hcur. rewrite cell_colors_eq. unfold effective_colors.
    rewrite Hrev, Hcur. unfold swap_colors.
    destruct (with_defaults self cData). reflexivity. }
  split; [reflexivity |].
  intros point0 point1 ops point0' ops'. unfold draw_cell.
  destruct (cell_colors self screen line char cData) as [bgc fgc].
  cbn [fst snd]. intros E.
  apply bind_Ok_inv in E. destruct E as [bgColor [Ebg E]].
  apply bind_Ok_inv in E. destruct E as [fgColor [Efg E]].
  apply bind_Ok_inv in E. destruct E as [ops1 [E1 E]].
  apply bind_Ok_inv in E. destruct E as [[ew font] [Em E]].
  apply memofont_Ok_inv in Em. destruct Em as [_ ->].
  apply bind_Ok_inv in E. destruct E as [ops2 [E2 E]].
  apply bind_Ok_inv in E. destruct E as [ops3 [E3 E]].
  apply bind_Ok_inv in E. destruct E as [ops4 [E4 E]].
  injection E as _ <-. cbn [fst] in E4.
  apply draw_text_Ok_inv in E4.
  assert (I12 : incl ops1 ops2).
  { destruct (pyte.underscore cData).
    - apply draw_line_Ok_inv in E2. subst ops2. apply incl_appl, incl_refl.
    - injection E2 as <-. apply incl_refl. }
  assert (I23 : incl ops2 ops3).
  { destruct (pyte.strikethrough cData).
    - apply draw_line_Ok_inv in E3. subst ops3. apply incl_appl, incl_refl.
    - injection E3 as <-. apply incl_refl. }
  exists bgColor, fgColor. split; [exact Ebg |]. split; [exact Efg |]. split.
  - subst ops4. apply in_or_app. right. left. reflexivity.
  - intros Hne. subst ops4. apply in_or_app. left. apply I23, I12.
    destruct (String.eqb_spec bgColor (bgDefaultColor self)) as [Eq | _];
      [contradiction |].
    cbn [negb] in E1. apply draw_rectangle_Ok_inv in E1. subst ops1.
    apply in_or_app. right. left. reflexivity.
Qed.

(** C9.  Whatever the module's globals hold, the extra width [memofont]
    returns is never negative, so the advance [charWidth + extraWidth] of a
    cell is never less than [charWidth]. *)
Theorem extra_width_nonneg (g : Globals) (self : tty2img) (font0 : Font)
  (font1 : option Face) (char : string) (extraWidth : Z) (font : FontPair)
  (log : list string) :
  memofont_in H g self font0 font1 char = Ok (extraWidth, font, log) ->
  0 <= extraWidth /\ charWidth self <= charWidth self + extraWidth.
Proof.
  intros E. apply memofont_in_nonneg in E. split; lia.
Qed.

(** C6.  An instance made by [__init__] returns from [render] an image of
    1920 by 1080 pixels, or of 1920 // F by 1080 // F when the antialiasing
    factor F is above 1, whatever the screen.  It does return one when
    every cell of the screen can be drawn and the factor leaves at least
    one row of pixels. *)
Theorem render_returns_fixed_size (a : Args) (self : tty2img)
  (screen : pyte.Screen) :
  __init__ H a = Ok self ->
  (forall self' image,
     render H self screen = (self', Ok image) ->
     Image_size image =
       if a_antialiasing a >? 1
       then (1920 / a_antialiasing a, 1080 / a_antialiasing a)
       else (1920, 1080)) /\
  (screen_ok H self screen = true ->
   a_antialiasing a <= 1080 ->
   exists image, snd (render H self screen) = Ok image).
Proof.
  intros Hinit.
  apply init_Ok_inv in Hinit. destruct Hinit as [fs [_ ->]].
  split.
  - intros self' image. unfold render. intros E. injection E as _ E.
    destruct (foldM _ [] (keys (pyte.buffer screen))) as [ops |];
      [| discriminate E].
    cbn [bind built set_showCursor antialiasing imgWidth imgHeight base_image]
      in E.
    destruct (a_antialiasing a >? 1).
    + unfold resize in E.
      destruct ((1920 / a_antialiasing a <? 1) || (1080 / a_antialiasing a <? 1));
        [discriminate E |].
      injection E as <-. reflexivity.
    + injection E as <-. reflexivity.
  - intros Hok HF. unfold render. cbn [snd].
    destruct (render_lines_ok H
                (set_showCursor (built H a fs)
                   (showCursor (built H a fs)
                    && negb (pyte.hidden (pyte.cursor screen))))
                screen (keys (pyte.buffer screen))) with (ops := @nil DrawOp)
      as [ops Eops].
    { rewrite screen_ok_showCursor. exact Hok. }
    { intros l Hl. exact Hl. }
    rewrite Eops.
    cbn [bind built set_showCursor antialiasing imgWidth imgHeight base_image].
    destruct (Z.gtb_spec (a_antialiasing a) 1) as [Hgt | Hle].
    + unfold resize.
      assert (1 <= 1920 / a_antialiasing a)
        by (apply Z.div_le_lower_bound; lia).
      assert (1 <= 1080 / a_antialiasing a)
        by (apply Z.div_le_lower_bound; lia).
      destruct (Z.ltb_spec (1920 / a_antialiasing a) 1); [lia |].
      destruct (Z.ltb_spec (1080 / a_antialiasing a) 1); [lia |].
      eexists. reflexivity.
    + eexists. reflexivity.
Qed.

End Rendering.

(** * The program run on the small host *)

Lemma forallb_range (P : Z -> bool) (lo hi : Z) :
  forallb P (range lo hi) = true -> forall j, lo <= j < hi -> P j = true.
Proof.
  intros Hall j Hj. rewrite forallb_forall in Hall.
  apply Hall. apply range_In. exact Hj.
Qed.

Lemma toy_no_overflow_below_24 (j : Z) :
  8 <= j < 24 ->
  overflows Toy.host (Toy.defaults Toy.screen80)
    (mkFont (a_fontName (Toy.defaults Toy.screen80)) j) = false.
Proof.
  intros Hj. apply negb_true_iff.
  apply (forallb_range
           (fun j => negb (overflows Toy.host (Toy.defaults Toy.screen80)
                             (mkFont "DejaVuSansMono.ttf" j))) 8 24);
    [vm_compute; reflexivity | exact Hj].
Qed.

Lemma toy_no_overflow_small_screen (j : Z) :
  8 <= j < 64 ->
  overflows Toy.host (Toy.defaults Toy.screen10)
    (mkFont (a_fontName (Toy.defaults Toy.screen10)) j) = false.
Proof.
  intros Hj. apply negb_true_iff.
  apply (forallb_range
           (fun j => negb (overflows Toy.host (Toy.defaults Toy.screen10)
                             (mkFont "DejaVuSansMono.ttf" j))) 8 64);
    [vm_compute; reflexivity | exact Hj].
Qed.

(** On the 80x24 screen size 24 is the first to overflow (80 * 24 + 20 is
    more than 1920), and the fonts are loaded at 24. *)
Lemma negotiation_adopts_first_overflow_witness :
  fst (normalFont (built Toy.host (Toy.defaults Toy.screen80) 24)) =
    mkFont "DejaVuSansMono.ttf" 24 /\
  fst (boldItalicsFont (built Toy.host (Toy.defaults Toy.screen80) 24)) =
    mkFont "DejaVuSansMono-BoldOblique.ttf" 24.
Proof.
  destruct (negotiation_adopts_first_overflow Toy.host
              (Toy.defaults Toy.screen80)
              (built Toy.host (Toy.defaults Toy.screen80) 24) 24)
    as [_ [_ [_ [_ [N [_ [_ [BI _]]]]]]]].
  - lia.
  - reflexivity.
  - exact toy_no_overflow_below_24.
  - reflexivity.
  - split; [exact N | exact BI].
Defined.

(** C3 fails on the code: on the 10x5 screen no size from 8 to 63
    overflows, and construction returns an instance, with the fonts at the
    nominal size 16. *)
Lemma no_overflow_construction_returns :
  (forall j, 8 <= j < 64 ->
     overflows Toy.host (Toy.defaults Toy.screen10)
       (mkFont (a_fontName (Toy.defaults Toy.screen10)) j) = false) /\
  __init__ Toy.host (Toy.defaults Toy.screen10) = Ok Toy.renderer /\
  (forall e, __init__ Toy.host (Toy.defaults Toy.screen10) <> Err e) /\
  size (fst (normalFont Toy.renderer)) = 16.
Proof.
  split; [exact toy_no_overflow_small_screen |].
  split; [reflexivity |]. split; [| reflexivity].
  intros e E. vm_compute in E. discriminate E.
Qed.

(** On the 10x5 screen nothing overflows: with the defaults construction
    succeeds at size 16, and with a background PIL does not know it fails
    with the error of the colour. *)
Lemma no_overflow_keeps_nominal_size_witness :
  (exists self,
     __init__ Toy.host (Toy.defaults Toy.screen10) = Ok self /\
     size (fst (normalFont self)) = 16 /\
     size (fst (boldFont self)) = 16 /\
     size (fst (italicsFont self)) = 16 /\
     size (fst (boldItalicsFont self)) = 16) /\
  (exists e,
     __init__ Toy.host Toy.bad_background = Err e /\
     ((exists file, e = OSError file) \/
      (exists file, e = FT_Exception file) \/
      e = ValueError "nocolour")).
Proof.
  split.
  - apply (no_overflow_keeps_nominal_size Toy.host
             (Toy.defaults Toy.screen10)).
    exact toy_no_overflow_small_screen.
  - apply (no_overflow_keeps_nominal_size Toy.host Toy.bad_background).
    exact toy_no_overflow_small_screen.
Defined.

(** C7 fails on the code: with factor 2 and a line spacing of 3 the cell
    height is ascent + descent + 3, not + 6, and the fonts are loaded at
    the negotiated size 24, not at 2 * 16; the scaled values 6 and 32 are
    stored in attributes that nothing reads. *)
Lemma antialiasing_leaves_spacing_and_font_size :
  exists self,
    __init__ Toy.host Toy.antialiased = Ok self /\
    a_antialiasing Toy.antialiased = 2 /\
    a_lineSpace Toy.antialiased = 3 /\
    a_fontSize Toy.antialiased = 16 /\
    lineSpace self = 6 /\
    fontSize self = 32 /\
    getmetrics Toy.host (fst (normalFont self)) = (24, 6) /\
    charHeight self = 24 + 6 + 3 /\
    charHeight self <> 24 + 6 + 3 * 2 /\
    size (fst (normalFont self)) = 24 /\
    size (fst (normalFont self)) <> 16 * 2.
Proof.
  exists (built Toy.host Toy.antialiased 24).
  repeat split; try reflexivity; vm_compute; discriminate.
Qed.

Lemma antialiasing_scales_margin_and_output_witness :
  marginSize (built Toy.host Toy.antialiased 24) = 10 * 2 /\
  forall self' image,
    render Toy.host (built Toy.host Toy.antialiased 24) Toy.screen80 =
      (self', Ok image) ->
    Image_size image = (960, 540).
Proof.
  destruct (antialiasing_scales_margin_and_output Toy.host Toy.antialiased
              (built Toy.host Toy.antialiased 24))
    as [M [_ R]].
  - simpl. lia.
  - reflexivity.
  - split; [exact M |].
    intros self' image E. destruct (R _ _ _ E) as [ops [_ [_ S]]]. exact S.
Defined.

(** C2 fails on the code: a screen with one character the font does not
    cover makes [render] raise [NameError], because [memofont] names
    [fallbackFonts], which is a parameter of [__init__] and no global. *)
Theorem missing_glyph_aborts_render :
  get_char_index Toy.host (mkFace "DejaVuSansMono.ttf") Toy.uncovered = 0 /\
  memofont Toy.host Toy.renderer (mkFont "DejaVuSansMono.ttf" 16)
    (Some (mkFace "DejaVuSansMono.ttf")) Toy.uncovered =
    Err (NameError "fallbackFonts") /\
  snd (render Toy.host Toy.renderer Toy.screen_uncovered) =
    Err (NameError "fallbackFonts").
Proof. repeat split. Qed.

(** C5 fails on the code: [render] stores the conjunction with the
    screen's [hidden] flag back into [self.showCursor].  After one call on
    a screen that hides its cursor the instance no longer marks the cursor
    of a screen that shows it. *)
Theorem render_switches_cursor_off :
  __init__ Toy.host Toy.args_cursor = Ok Toy.with_cursor /\
  showCursor Toy.with_cursor = true /\
  showCursor (fst (render Toy.host Toy.with_cursor Toy.screen_hidden)) = false /\
  snd (render Toy.host Toy.with_cursor Toy.screen10) =
    Ok (Image_drawn (Image_new "RGBA" 1920 1080 "white")
          [Rectangle 10 10 26 30 "black";
           Text 10 10 "A" "white" (mkFont "DejaVuSansMono.ttf" 16)]) /\
  snd (render Toy.host
         (fst (render Toy.host Toy.with_cursor Toy.screen_hidden))
         Toy.screen10) =
    Ok (Image_drawn (Image_new "RGBA" 1920 1080 "white")
          [Text 10 10 "A" "black" (mkFont "DejaVuSansMono.ttf" 16)]).
Proof. repeat split. Qed.

(** With [fallbackFonts] and the other names bound, the fallback font at
    size 20 is 4 wider than the cell of 16. *)
Lemma extra_width_nonneg_witness :
  memofont_in Toy.host Toy.patched Toy.renderer
    (mkFont "DejaVuSansMono.ttf" 16) (Some (mkFace "DejaVuSansMono.ttf"))
    Toy.uncovered =
    Ok (4, (mkFont "Symbola.ttf" 20, None), []) /\
  0 <= 4 /\ charWidth Toy.renderer <= charWidth Toy.renderer + 4.
Proof.
  split; [reflexivity |].
  apply (extra_width_nonneg Toy.host Toy.patched Toy.renderer
           (mkFont "DejaVuSansMono.ttf" 16)
           (Some (mkFace "DejaVuSansMono.ttf")) Toy.uncovered 4
           (mkFont "Symbola.ttf" 20, None) []).
  reflexivity.
Defined.

Lemma render_returns_fixed_size_witness :
  (forall self' image,
     render Toy.host Toy.renderer Toy.screen80 = (self', Ok image) ->
     Image_size image = (1920, 1080)) /\
  exists image, snd (render Toy.host Toy.renderer Toy.screen80) = Ok image.
Proof.
  destruct (render_returns_fixed_size Toy.host (Toy.defaults Toy.screen10)
              Toy.renderer Toy.screen80) as [S R].
  - reflexivity.
  - split; [exact S |]. apply R; [reflexivity | simpl; lia].
Defined.

(** A reversed cell under a shown cursor keeps black on white. *)
Lemma colors_defaults_reverse_cursor_witness :
  cell_colors Toy.with_cursor Toy.screen10 0 0
    (pyte.mkChar "A" "default" "default" false false false false true) =
  ("white", "black").
Proof.
  destruct (colors_defaults_reverse_cursor Toy.host Toy.with_cursor
              Toy.screen10 0 0
              (pyte.mkChar "A" "default" "default" false false false false true))
    as [_ [U _]].
  rewrite U; reflexivity.
Defined.

(** Columns 0 and 5 with the gap skipped and with four blanks between:
    the hypotheses hold on the small host. *)
Lemma gap_equals_blank_cells_witness :
  exists blanks : Z -> list DrawOp,
  forall ops,
    render_chars Toy.host Toy.renderer Toy.screen10 0
      [(0, Toy.cell "A"); (5, Toy.cell "B")] 10
      (10, -1, ops) [0; 5] =
    ('(p, _, o) <- render_char Toy.host Toy.renderer Toy.screen10 0
                     [(0, Toy.cell "A"); (5, Toy.cell "B")] 10 (10, -1, ops) 0 ;;
     rmap (after o)
       (render_char Toy.host Toy.renderer Toy.screen10 0
          [(0, Toy.cell "A"); (5, Toy.cell "B")] 10 (p + 4 * 16, 4, []) 5))
    /\
    render_chars Toy.host Toy.renderer Toy.screen10 0
      [(0, Toy.cell "A"); (1, pyte.blank); (2, pyte.blank); (3, pyte.blank);
       (4, pyte.blank); (5, Toy.cell "B")] 10
      (10, -1, ops) [0; 1; 2; 3; 4; 5] =
    ('(p, _, o) <- render_char Toy.host Toy.renderer Toy.screen10 0
                     [(0, Toy.cell "A"); (5, Toy.cell "B")] 10 (10, -1, ops) 0 ;;
     rmap (after (o ++ blanks p))
       (render_char Toy.host Toy.renderer Toy.screen10 0
          [(0, Toy.cell "A"); (5, Toy.cell "B")] 10 (p + 4 * 16, 4, []) 5)).
Proof.
  apply (gap_equals_blank_cells Toy.host Toy.renderer Toy.screen10
           (mkFace "DejaVuSansMono.ttf") "white" "black" 0 10
           (Toy.cell "A") (Toy.cell "B"));
    try reflexivity.
  simpl. discriminate.
Defined.

(** A row with [A] at column 0, an empty cell at column 1 and [B] at
    column 3. *)
Lemma empty_cell_pulls_row_left_witness :
  exists pre post,
    sorted (keys [(0, Toy.cell "A"); (3, Toy.cell "B")]) = pre ++ post /\
    sorted (keys [(0, Toy.cell "A"); (1, Toy.cell EmptyString); (3, Toy.cell "B")]) =
      pre ++ 1 :: post /\
    forall p l ops,
      post <> [] ->
      render_chars Toy.host Toy.renderer Toy.screen10 0
        [(0, Toy.cell "A"); (1, Toy.cell EmptyString); (3, Toy.cell "B")] 10
        (p, l, ops) (1 :: post) =
      rmap (fun st => after ops (shifted (- 16) st))
        (render_chars Toy.host Toy.renderer Toy.screen10 0
           [(0, Toy.cell "A"); (3, Toy.cell "B")] 10 (p, l, []) post).
Proof.
  destruct (empty_cell_pulls_row_left Toy.host Toy.renderer Toy.screen10
              0 10 1 (Toy.cell EmptyString) [(0, Toy.cell "A")] [(3, Toy.cell "B")])
    as [pre [post [E1 [E2 [_ [_ [_ [_ L]]]]]]]].
  - reflexivity.
  - simpl. intros [E | [E | []]]; discriminate E.
  - exists pre, post. split; [exact E1 |]. split; [exact E2 | exact L].
Defined.

(** * Further properties of the module *)

Section Colours.

Context (H : Host).

(** X1.  [_convertColor] raises exactly on the empty string, and then
    [IndexError].  What it returns starts with a hash mark or is one of
    PIL's colour names, and is left as it is by a second pass. *)
Theorem convertColor_fixpoint (color : string) :
  (forall e, _convertColor H color = Err e <->
             color = EmptyString /\ e = IndexError) /\
  (forall c, _convertColor H color = Ok c ->
             _convertColor H c = Ok c /\
             ((exists rest, c = String "#" rest) \/ In c (colormap H))).
Proof.
  split.
  - intros e. unfold _convertColor. destruct color as [| c0 rest].
    + split.
      * intros E. injection E as <-. split; reflexivity.
      * intros [_ ->]. reflexivity.
    + destruct (negb (Ascii.eqb c0 "#")
                && negb (existsb (String.eqb (String c0 rest)) (colormap H)));
        split; intros E; try discriminate E; destruct E as [E _];
        discriminate E.
  - intros c. unfold _convertColor at 1. destruct color as [| c0 rest].
    + intros E. discriminate E.
    + destruct (Ascii.eqb_spec c0 "#") as [-> | Hne]; cbn [negb andb].
      * intros E. injection E as <-. split.
        -- reflexivity.
        -- left. exists rest. reflexivity.
      * destruct (existsb (String.eqb (String c0 rest)) (colormap H)) eqn:Ex;
          cbn [negb]; intros E; injection E as <-.
        -- split.
           ++ unfold _convertColor. rewrite Ex.
              rewrite andb_false_r. reflexivity.
           ++ right. apply existsb_exists in Ex.
              destruct Ex as [n [Hin En]]. apply String.eqb_eq in En.
              subst n. exact Hin.
        -- split.
           ++ reflexivity.
           ++ left. exists (String c0 rest). reflexivity.
Qed.

End Colours.

Section Glyphs.

Context (H : Host).

Lemma key_eqb_refl (k : CacheKey) : key_eqb k k = true.
Proof.
  destruct k as [[[s f0] f1] c]. unfold key_eqb.
  rewrite !Z.eqb_refl, String.eqb_refl. reflexivity.
Qed.

Lemma cache_get_firstn (k : CacheKey) (n : nat) (cache : Cache) :
  cache_get k cache = None -> cache_get k (firstn n cache) = None.
Proof.
  revert n. induction cache as [| [k' v] rest IH]; intros n E.
  - rewrite firstn_nil. reflexivity.
  - destruct n as [| n]; [reflexivity |].
    cbn [firstn cache_get] in *.
    destruct (key_eqb k' k); [discriminate E | apply IH; exact E].
Qed.

Lemma cache_remove_miss (k : CacheKey) (cache : Cache) :
  cache_get k cache = None -> cache_remove k cache = cache.
Proof.
  induction cache as [| [k' v] rest IH]; cbn [cache_get cache_remove];
    intros E.
  - reflexivity.
  - destruct (key_eqb k' k); [discriminate E |].
    rewrite IH by exact E. reflexivity.
Qed.

(** A result just stored is found by the next call with the same key,
    which leaves the cache as it is. *)
Lemma cache_hit_after_store (g : Globals) (cache : Cache) (ids : Z * Z * Z)
  (v : Z * FontPair) (self : tty2img) (font0 : Font) (font1 : option Face)
  (char : string) :
  cache_get (call_key ids char) cache = None ->
  memofont_cached H g (firstn maxsize ((call_key ids char, v) :: cache))
    ids self font0 font1 char =
  (Ok v, [], firstn maxsize ((call_key ids char, v) :: cache)).
Proof.
  intros Hmiss. unfold memofont_cached, maxsize. rewrite firstn_cons.
  cbn [cache_get cache_remove]. rewrite key_eqb_refl.
  rewrite cache_remove_miss; [reflexivity |].
  apply cache_get_firstn. exact Hmiss.
Qed.

(** X2.  As the module stands, a call of [memofont] that finds nothing in
    the cache has one of three outcomes, and never reaches the sink.  A
    string that is not one character raises [TypeError]; a character the
    face lacks raises [NameError] on [fallbackFonts]; neither is stored,
    so the same call raises again.  A character the face covers returns
    the font it was given with no extra width, which is stored and
    returned by the next call. *)
Theorem memofont_by_coverage (cache : Cache) (ids : Z * Z * Z)
  (self : tty2img) (font0 : Font) (face : Face) (char : string) :
  let key := call_key ids char in
  cache_get key cache = None ->
  let call c := memofont_cached H module_globals c ids self font0
                  (Some face) char in
  let v := (0, (font0, Some face)) in
  match hex_ord H char with
  | None => call cache = (Err TypeError, [], cache)
  | Some _ =>
      if get_char_index H face char =? 0
      then call cache = (Err (NameError "fallbackFonts"), [], cache)
      else call cache = (Ok v, [], firstn maxsize ((key, v) :: cache)) /\
           call (firstn maxsize ((key, v) :: cache)) =
             (Ok v, [], firstn maxsize ((key, v) :: cache))
  end.
Proof.
  intros key Hmiss call v. subst call v key. cbv beta.
  assert (E : memofont_cached H module_globals cache ids self font0
                (Some face) char =
              match memofont_in H module_globals self font0 (Some face) char
              with
              | Ok (v, log) =>
                  (Ok v, log,
                   firstn maxsize ((call_key ids char, v) :: cache))
              | Err e => (Err e, [], cache)
              end).
  { unfold memofont_cached. rewrite Hmiss. reflexivity. }
  rewrite E. unfold memofont_in, face_get_char_index. cbn [bind].
  destruct (hex_ord H char); cbn [bind]; [| reflexivity].
  destruct (get_char_index H face char =? 0).
  - reflexivity.
  - split; [reflexivity |]. apply cache_hit_after_store. exact Hmiss.
Qed.

Lemma fallback_search_skips (g : Globals) (self : tty2img)
  (fclist : string -> string -> list string) (cData : pyte.Char)
  (h : string) (families rest : list string) :
  g_fclist g = Some fclist ->
  g_cData g = Some cData ->
  hex_ord H (pyte.data cData) = Some h ->
  (forall f, In f families -> fclist f h = []) ->
  fallback_search H g self (families ++ rest) = fallback_search H g self rest.
Proof.
  intros Ef Ec Eh Hnone.
  induction families as [| f fams IH]; cbn [app fallback_search].
  - reflexivity.
  - rewrite Ef, Ec. cbn [global bind]. rewrite Eh. cbn [bind].
    rewrite (Hnone f (or_introl eq_refl)).
    apply IH. intros f' Hf'. apply Hnone. right. exact Hf'.
Qed.

(** X3.  Were the names [memofont] reads bound as globals: for a character
    (one character, as [ord] requires) that the
    face lacks, the families are tried in the order of the list, and the
    first one for which [fclist] reports a file gives the font, loaded at
    the global [fontSize]; the extra width is what the global [cData]
    measures in that font beyond [charWidth], and nothing is logged. *)
Theorem fallback_first_family_wins (g : Globals) (self : tty2img)
  (font0 : Font) (face : Face) (char : string)
  (fclist : string -> string -> list string) (cData : pyte.Char)
  (fontSize0 : Z) (h : string) (before after_ : list string)
  (fname ff : string) (files : list string) :
  hex_ord H char <> None ->
  get_char_index H face char = 0 ->
  g_fallbackFonts g = Some (before ++ fname :: after_) ->
  g_fclist g = Some fclist ->
  g_cData g = Some cData ->
  g_fontSize g = Some fontSize0 ->
  hex_ord H (pyte.data cData) = Some h ->
  (forall f, In f before -> fclist f h = []) ->
  fclist fname h = ff :: files ->
  truetype_ok H ff fontSize0 = true ->
  memofont_in H g self font0 (Some face) char =
  Ok (Z.max 0 (fst (getsize H (mkFont ff fontSize0) (pyte.data cData))
               - charWidth self),
      (mkFont ff fontSize0, None), []).
Proof.
  intros Ho Hc Efb Ef Ec Es Eh Hnone Hff Ht.
  unfold memofont_in, face_get_char_index. cbn [bind].
  destruct (hex_ord H char); [| contradiction].
  cbn [bind]. rewrite Hc. cbn [Z.eqb].
  rewrite Efb. cbn [global bind].
  rewrite (fallback_search_skips g self fclist cData h before
             (fname :: after_) Ef Ec Eh Hnone).
  cbn [fallback_search]. rewrite Ef, Ec. cbn [global bind].
  rewrite Eh. cbn [bind]. rewrite Hff, Es. cbn [global bind].
  unfold truetype. rewrite Ht. cbn [bind]. reflexivity.
Qed.

Lemma memofont_in_none (g : Globals) (self : tty2img)
  (font0 : Font) (face : Face) (char : string)
  (fclist : string -> string -> list string) (cData : pyte.Char)
  (h : string) (families : list string) (sink : bool) :
  hex_ord H char <> None ->
  get_char_index H face char = 0 ->
  g_fallbackFonts g = Some families ->
  g_fclist g = Some fclist ->
  g_cData g = Some cData ->
  g_logFunction g = Some sink ->
  hex_ord H (pyte.data cData) = Some h ->
  (forall f, In f families -> fclist f h = []) ->
  memofont_in H g self font0 (Some face) char =
  Ok (0, (font0, Some face),
      if sink
      then [("Missing glyph for " ++ h ++ " Unicode symbols ("
             ++ pyte.data cData ++ ")")%string]
      else []).
Proof.
  intros Ho Hc Efb Ef Ec El Eh Hnone.
  unfold memofont_in, face_get_char_index. cbn [bind].
  destruct (hex_ord H char); [| contradiction].
  cbn [bind]. rewrite Hc. cbn [Z.eqb].
  rewrite Efb. cbn [global bind].
  rewrite <- (app_nil_r families).
  rewrite (fallback_search_skips g self fclist cData h families []
             Ef Ec Eh Hnone).
  cbn [fallback_search bind]. rewrite El. cbn [global bind].
  destruct sink.
  - rewrite Ec. cbn [global bind]. rewrite Eh. reflexivity.
  - reflexivity.
Qed.

(** X4.  Were the names bound and no family had a font for the character
    (one character the face lacks): a call of [memofont] that finds
    nothing in the cache returns the font it was given with no extra
    width, and hands the sink one message when a sink is set, none
    otherwise; the result is stored, and the same call made again returns
    it from the cache without any message. *)
Theorem fallback_none_logs (g : Globals) (cache : Cache) (ids : Z * Z * Z)
  (self : tty2img) (font0 : Font) (face : Face) (char : string)
  (fclist : string -> string -> list string) (cData : pyte.Char)
  (h : string) (families : list string) (sink : bool) :
  hex_ord H char <> None ->
  get_char_index H face char = 0 ->
  g_fallbackFonts g = Some families ->
  g_fclist g = Some fclist ->
  g_cData g = Some cData ->
  g_logFunction g = Some sink ->
  hex_ord H (pyte.data cData) = Some h ->
  (forall f, In f families -> fclist f h = []) ->
  cache_get (call_key ids char) cache = None ->
  let v := (0, (font0, Some face)) in
  let cache' := firstn maxsize ((call_key ids char, v) :: cache) in
  memofont_cached H g cache ids self font0 (Some face) char =
    (Ok v,
     if sink
     then [("Missing glyph for " ++ h ++ " Unicode symbols ("
            ++ pyte.data cData ++ ")")%string]
     else [],
     cache') /\
  memofont_cached H g cache' ids self font0 (Some face) char =
    (Ok v, [], cache').
Proof.
  intros Ho Hc Efb Ef Ec El Eh Hnone Hmiss v cache'. split.
  - unfold memofont_cached. rewrite Hmiss.
    rewrite (memofont_in_none g self font0 face char fclist cData h
               families sink Ho Hc Efb Ef Ec El Eh Hnone).
    reflexivity.
  - apply cache_hit_after_store. exact Hmiss.
Qed.

End Glyphs.

Section Geometry.

Context (H : Host).

Lemma draw_cell_Ok_ops (self : tty2img) (screen : pyte.Screen)
  (line char : Z) (cData : pyte.Char) (point0 point1 : Z)
  (ops : list DrawOp) (point0' : Z) (ops' : list DrawOp) :
  draw_cell H self screen line char cData point0 point1 ops =
    Ok (point0', ops') ->
  exists bgColor fgColor,
    _convertColor H (fst (cell_colors self screen line char cData)) =
      Ok bgColor /\
    _convertColor H (snd (cell_colors self screen line char cData)) =
      Ok fgColor /\
    point0' = point0 + charWidth self /\
    ops' =
      ops
      ++ (if (bgColor =? bgDefaultColor self)%string then []
          else [Rectangle point0 point1 (point0 + charWidth self)
                  (point1 + charHeight self) bgColor])
      ++ (if pyte.underscore cData
          then [Line point0 (point1 + charHeight self - 1)
                  (point0 + charWidth self) (point1 + charHeight self - 1)
                  fgColor]
          else [])
      ++ (if pyte.strikethrough cData
          then [Line point0 (point1 + charHeight self / 2)
                  (point0 + charWidth self) (point1 + charHeight self / 2)
                  fgColor]
          else [])
      ++ [Text point0 point1 (pyte.data cData) fgColor
            (fst (select_font self cData))].
Proof.
  intros E. pose proof (draw_cell_advance H _ _ _ _ _ _ _ _ _ _ E) as Hadv.
  unfold draw_cell in E.
  destruct (cell_colors self screen line char cData) as [bgc fgc].
  cbn [fst snd].
  apply bind_Ok_inv in E. destruct E as [bgColor [Ebg E]].
  apply bind_Ok_inv in E. destruct E as [fgColor [Efg E]].
  apply bind_Ok_inv in E. destruct E as [ops1 [E1 E]].
  apply bind_Ok_inv in E. destruct E as [[ew font] [Em E]].
  apply memofont_Ok_inv in Em. destruct Em as [_ ->].
  apply bind_Ok_inv in E. destruct E as [ops2 [E2 E]].
  apply bind_Ok_inv in E. destruct E as [ops3 [E3 E]].
  apply bind_Ok_inv in E. destruct E as [ops4 [E4 E]].
  injection E as _ <-. cbn [fst] in E4.
  apply draw_text_Ok_inv in E4.
  exists bgColor, fgColor.
  split; [exact Ebg |]. split; [exact Efg |]. split; [exact Hadv |].
  assert (O1 : ops1 = ops ++
            (if (bgColor =? bgDefaultColor self)%string then []
             else [Rectangle point0 point1 (point0 + charWidth self)
                     (point1 + charHeight self) bgColor])).
  { destruct (bgColor =? bgDefaultColor self)%string; cbn [negb] in E1.
    - injection E1 as <-. rewrite app_nil_r. reflexivity.
    - apply draw_rectangle_Ok_inv in E1. exact E1. }
  assert (O2 : ops2 = ops1 ++
            (if pyte.underscore cData
             then [Line point0 (point1 + charHeight self - 1)
                     (point0 + charWidth self) (point1 + charHeight self - 1)
                     fgColor]
             else [])).
  { destruct (pyte.underscore cData).
    - apply draw_line_Ok_inv in E2. exact E2.
    - injection E2 as <-. rewrite app_nil_r. reflexivity. }
  assert (O3 : ops3 = ops2 ++
            (if pyte.strikethrough cData
             then [Line point0 (point1 + charHeight self / 2)
                     (point0 + charWidth self) (point1 + charHeight self / 2)
                     fgColor]
             else [])).
  { destruct (pyte.strikethrough cData).
    - apply draw_line_Ok_inv in E3. exact E3.
    - injection E3 as <-. rewrite app_nil_r. reflexivity. }
  rewrite E4, O3, O2, O1. rewrite <- !app_assoc. reflexivity.
Qed.

(** X5.  What a cell with a character adds to the drawing, in order: the
    background rectangle when the converted background differs from the
    default colour, the underline on the last pixel row of the cell, the
    strike-through at half its height, and the glyph last, each only when
    its flag is set; the pen then moves one cell width. *)
Theorem draw_cell_calls (self : tty2img) (screen : pyte.Screen)
  (line char : Z) (cData : pyte.Char) (point0 point1 : Z)
  (ops : list DrawOp) (point0' : Z) (ops' : list DrawOp) :
  draw_cell H self screen line char cData point0 point1 ops =
    Ok (point0', ops') ->
  exists bgColor fgColor,
    _convertColor H (fst (cell_colors self screen line char cData)) =
      Ok bgColor /\
    _convertColor H (snd (cell_colors self screen line char cData)) =
      Ok fgColor /\
    point0' = point0 + charWidth self /\
    ops' =
      ops
      ++ (if (bgColor =? bgDefaultColor self)%string then []
          else [Rectangle point0 point1 (point0 + charWidth self)
                  (point1 + charHeight self) bgColor])
      ++ (if pyte.underscore cData
          then [Line point0 (point1 + charHeight self - 1)
                  (point0 + charWidth self) (point1 + charHeight self - 1)
                  fgColor]
          else [])
      ++ (if pyte.strikethrough cData
          then [Line point0 (point1 + charHeight self / 2)
                  (point0 + charWidth self) (point1 + charHeight self / 2)
                  fgColor]
          else [])
      ++ [Text point0 point1 (pyte.data cData) fgColor
            (fst (select_font self cData))].
Proof. apply draw_cell_Ok_ops. Qed.

Lemma last_cons (c d : Z) (rest : list Z) :
  last (c :: rest) d = last rest c.
Proof.
  revert c d. induction rest as [| c' rest IH]; intros c d.
  - reflexivity.
  - change (last (c :: c' :: rest) d) with (last (c' :: rest) d).
    rewrite !IH. reflexivity.
Qed.

Lemma render_char_pen (self : tty2img) (screen : pyte.Screen) (line : Z)
  (row : list (Z * pyte.Char)) (point1 p l : Z) (ops : list DrawOp)
  (c p' l' : Z) (ops' : list DrawOp) :
  render_char H self screen line row point1 (p, l, ops) c = Ok (p', l', ops') ->
  l' = c /\
  p' = p + charWidth self * (c - l) - charWidth self * count_empty row [c].
Proof.
  unfold render_char, getitem. cbn [count_empty].
  destruct (lookup c row) as [cData |]; cbn [bind]; [| discriminate].
  destruct (pyte.data cData =? EmptyString)%string.
  - intros E. injection E as <- <- _. split; [reflexivity | lia].
  - intros E. apply bind_Ok_inv in E. destruct E as [[p2 o2] [D E]].
    injection E as <- <- _. apply draw_cell_advance in D.
    split; [reflexivity | lia].
Qed.

Lemma count_empty_cons (row : list (Z * pyte.Char)) (c : Z) (rest : list Z) :
  count_empty row (c :: rest) = count_empty row [c] + count_empty row rest.
Proof. cbn [count_empty]. lia. Qed.

Lemma count_empty_app (row : list (Z * pyte.Char)) (c1 c2 : list Z) :
  count_empty row (c1 ++ c2) = count_empty row c1 + count_empty row c2.
Proof.
  induction c1 as [| c rest IH]; cbn [app count_empty].
  - reflexivity.
  - rewrite IH. lia.
Qed.

Lemma render_chars_state (self : tty2img) (screen : pyte.Screen) (line : Z)
  (row : list (Z * pyte.Char)) (point1 : Z) (columns : list Z) :
  forall p l ops p' l' ops',
  render_chars H self screen line row point1 (p, l, ops) columns =
    Ok (p', l', ops') ->
  l' = last columns l /\
  p' = p + charWidth self * (l' - l) - charWidth self * count_empty row columns.
Proof.
  induction columns as [| c rest IH]; intros p l ops p' l' ops' E.
  - injection E as <- <- _. cbn [last count_empty]. split; [reflexivity | lia].
  - rewrite render_chars_cons in E.
    apply bind_Ok_inv in E. destruct E as [[[p1 l1] o1] [E1 E]].
    apply render_char_pen in E1. destruct E1 as [-> Hp1].
    apply IH in E. destruct E as [Hl Hp].
    rewrite last_cons, count_empty_cons.
    split; [exact Hl | lia].
Qed.

(** X6.  Where the loop over the columns leaves the pen: every column passed,
    populated or skipped as a gap, moves it by one cell width, except the
    cells holding the empty string, which move it by none.  [lchar] ends
    on the last column visited. *)
Theorem render_chars_pen (self : tty2img) (screen : pyte.Screen) (line : Z)
  (row : list (Z * pyte.Char)) (point1 : Z) (columns : list Z)
  (p l : Z) (ops : list DrawOp) (p' l' : Z) (ops' : list DrawOp) :
  render_chars H self screen line row point1 (p, l, ops) columns =
    Ok (p', l', ops') ->
  l' = last columns l /\
  p' = p + charWidth self * (l' - l) - charWidth self * count_empty row columns.
Proof. apply render_chars_state. Qed.

(** X7.  Where a cell is drawn: after any columns [before] it, the cell of
    column [c] is drawn with the pen at the margin plus one cell width for
    each column number up to [c], less one for each earlier cell holding
    the empty string. *)
Theorem cell_drawn_at_column (self : tty2img) (screen : pyte.Screen)
  (line : Z) (row : list (Z * pyte.Char)) (point1 : Z)
  (before : list Z) (c : Z) (cData : pyte.Char)
  (ops : list DrawOp) (p l : Z) (o : list DrawOp) :
  lookup c row = Some cData ->
  pyte.data cData <> EmptyString ->
  render_chars H self screen line row point1 (marginSize self, -1, ops) before =
    Ok (p, l, o) ->
  render_char H self screen line row point1 (p, l, o) c =
  ('(p2, o2) <- draw_cell H self screen line c cData
                  (marginSize self
                   + charWidth self * (c - count_empty row before))
                  point1 o ;;
   Ok (p2, c, o2)).
Proof.
  intros Hl Hd E. apply render_chars_state in E. destruct E as [_ Hp].
  unfold render_char, getitem. rewrite Hl. cbn [bind].
  destruct (String.eqb_spec (pyte.data cData) EmptyString) as [E | _];
    [contradiction |].
  replace (p + charWidth self * (c - l - 1))
    with (marginSize self + charWidth self * (c - count_empty row before))
    by lia.
  reflexivity.
Qed.

(** X8.  The cursor on a line of the buffer, at a column the line does not
    populate: after the cells of the line, one cell-sized rectangle in the
    default foreground colour is drawn, at the margin plus the cursor's
    column times the cell width, less one cell width for each cell of the
    line holding the empty string. *)
Theorem cursor_block_position (self : tty2img) (screen : pyte.Screen)
  (ops : list DrawOp) (line : Z) (row : list (Z * pyte.Char))
  (ops' : list DrawOp) :
  showCursor self = true ->
  line = pyte.y (pyte.cursor screen) ->
  lookup line (pyte.buffer screen) = Some row ->
  lookup (pyte.x (pyte.cursor screen)) row = None ->
  render_line H self screen ops line = Ok ops' ->
  let top := line * charHeight self + marginSize self in
  let left := marginSize self
              + charWidth self
                * (pyte.x (pyte.cursor screen)
                   - count_empty row (sorted (keys row))) in
  exists p l o,
    render_chars H self screen line row top (marginSize self, -1, ops)
      (sorted (keys row)) = Ok (p, l, o) /\
    ops' = o ++ [Rectangle left top (left + charWidth self)
                   (top + charHeight self) (fgDefaultColor self)].
Proof.
  intros Hs Hy Hrow Hx E top left.
  unfold render_line, getitem in E. rewrite Hrow in E. cbn [bind] in E.
  apply bind_Ok_inv in E. destruct E as [[[p l] o] [Ec E]].
  fold top in Ec.
  exists p, l, o. split; [exact Ec |].
  unfold contains in E. rewrite Hx, Hs in E. subst line.
  rewrite Z.eqb_refl in E. cbn [andb negb] in E.
  apply draw_rectangle_Ok_inv in E.
  apply render_chars_state in Ec. destruct Ec as [Hl Hp].
  rewrite E. subst left.
  replace (p + (pyte.x (pyte.cursor screen) - last (sorted (keys row)) (-1) - 1)
               * charWidth self)
    with (marginSize self
          + charWidth self
            * (pyte.x (pyte.cursor screen)
               - count_empty row (sorted (keys row))))
    by (rewrite <- Hl; lia).
  reflexivity.
Qed.

End Geometry.

Lemma foldM_ext {A B : Type} (f g : A -> B -> result A) (l : list B) :
  (forall a b, In b l -> f a b = g a b) ->
  forall a, foldM f a l = foldM g a l.
Proof.
  induction l as [| b rest IH]; intros Hfg a; cbn [foldM].
  - reflexivity.
  - rewrite (Hfg a b (or_introl eq_refl)).
    destruct (g a b) as [a' |]; cbn [bind]; [| reflexivity].
    apply IH. intros a0 b0 Hb0. apply Hfg. right. exact Hb0.
Qed.

Lemma sorted_Permutation (l l' : list Z) :
  Permutation l l' -> sorted l = sorted l'.
Proof.
  induction 1 as [| x l l' _ IH | x y l | l l' l'' _ IH1 _ IH2];
    cbn [sorted].
  - reflexivity.
  - rewrite IH. reflexivity.
  - apply insert_comm.
  - rewrite IH1. exact IH2.
Qed.

Lemma lookup_Permutation {V : Type} (d d' : list (Z * V)) :
  Permutation d d' -> NoDup (keys d) ->
  forall k, lookup k d = lookup k d'.
Proof.
  induction 1 as [| [k0 v0] d d' Hp IH | [k1 v1] [k2 v2] d
                  | d d' d'' Hp1 IH1 Hp2 IH2];
    intros Hnd k; cbn [lookup].
  - reflexivity.
  - cbn [keys map fst] in Hnd. apply NoDup_cons_iff in Hnd.
    destruct (k0 =? k); [reflexivity | apply IH; apply Hnd].
  - cbn [keys map fst] in Hnd. apply NoDup_cons_iff in Hnd.
    destruct Hnd as [Hnotin _].
    destruct (Z.eqb_spec k1 k) as [E1 | N1];
      destruct (Z.eqb_spec k2 k) as [E2 | N2]; try reflexivity.
    exfalso. apply Hnotin. left. lia.
  - rewrite IH1 by exact Hnd. apply IH2.
    unfold keys in *. eapply Permutation_NoDup; [| exact Hnd].
    apply Permutation_map. exact Hp1.
Qed.

Section Independence.

Context (H : Host).

Lemma memofont_showCursor (self : tty2img) (b : bool) (font0 : Font)
  (font1 : option Face) (char : string) :
  memofont H (set_showCursor self b) font0 font1 char =
  memofont H self font0 font1 char.
Proof.
  unfold memofont, memofont_in. destruct font1 as [face |]; cbn [bind rmap].
  - destruct (get_char_index H face char =? 0); reflexivity.
  - reflexivity.
Qed.

(** A cell that is not under a shown cursor is drawn as with the cursor
    switched off. *)
Lemma draw_cell_off (self : tty2img) (screen : pyte.Screen) (line char : Z)
  (cData : pyte.Char) (point0 point1 : Z) (ops : list DrawOp) :
  is_cursor_cell self screen line char = false ->
  draw_cell H self screen line char cData point0 point1 ops =
  draw_cell H (set_showCursor self false) screen line char cData
    point0 point1 ops.
Proof.
  unfold is_cursor_cell. intros Hc.
  unfold draw_cell, cell_colors, select_font.
  rewrite Hc. rewrite !memofont_showCursor. reflexivity.
Qed.

Lemma draw_cell_cursor_ext (self : tty2img) (screen screen' : pyte.Screen)
  (line char : Z) (cData : pyte.Char) (point0 point1 : Z)
  (ops : list DrawOp) :
  is_cursor_cell self screen line char =
    is_cursor_cell self screen' line char ->
  draw_cell H self screen line char cData point0 point1 ops =
  draw_cell H self screen' line char cData point0 point1 ops.
Proof.
  unfold is_cursor_cell. intros Hc.
  unfold draw_cell, cell_colors. rewrite Hc. reflexivity.
Qed.

(** X10.  Rendering a screen a second time gives the same image and leaves the
    instance as the first call left it. *)
Theorem render_again_same (self : tty2img) (screen : pyte.Screen) :
  render H (fst (render H self screen)) screen = render H self screen.
Proof.
  unfold render. cbn [fst].
  assert (E : set_showCursor
                (set_showCursor self
                   (showCursor self && negb (pyte.hidden (pyte.cursor screen))))
                (showCursor
                   (set_showCursor self
                      (showCursor self
                       && negb (pyte.hidden (pyte.cursor screen))))
                 && negb (pyte.hidden (pyte.cursor screen))) =
              set_showCursor self
                (showCursor self && negb (pyte.hidden (pyte.cursor screen)))).
  { unfold set_showCursor. cbn.
    destruct (showCursor self), (pyte.hidden (pyte.cursor screen));
      reflexivity. }
  rewrite E. reflexivity.
Qed.

(** X11.  The cursor is not shown on a cell that holds the empty string: a line
    whose cell at the cursor's column is such a cell is drawn exactly as
    with the cursor switched off, with no exchange of colours and no
    block. *)
Theorem cursor_on_empty_cell_not_shown (self : tty2img)
  (screen : pyte.Screen) (ops : list DrawOp) (line : Z)
  (row : list (Z * pyte.Char)) (e : pyte.Char) :
  lookup line (pyte.buffer screen) = Some row ->
  lookup (pyte.x (pyte.cursor screen)) row = Some e ->
  pyte.data e = EmptyString ->
  render_line H self screen ops line =
  render_line H (set_showCursor self false) screen ops line.
Proof.
  intros Hrow Hx He.
  unfold render_line, getitem. rewrite Hrow. cbn [bind].
  unfold contains. rewrite Hx. cbn [negb].
  rewrite !andb_false_r.
  change (charHeight (set_showCursor self false)) with (charHeight self).
  change (marginSize (set_showCursor self false)) with (marginSize self).
  unfold render_chars.
  rewrite (foldM_ext
             (render_char H self screen line row
                (line * charHeight self + marginSize self))
             (render_char H (set_showCursor self false) screen line row
                (line * charHeight self + marginSize self))).
  - reflexivity.
  - intros [[p l] o] c _. unfold render_char, getitem.
    destruct (lookup c row) as [cData |] eqn:Hc; cbn [bind];
      [| reflexivity].
    change (charWidth (set_showCursor self false)) with (charWidth self).
    destruct (String.eqb_spec (pyte.data cData) EmptyString) as [Ed | Hd];
      [reflexivity |].
    rewrite draw_cell_off; [reflexivity |].
    unfold is_cursor_cell.
    destruct (Z.eqb_spec c (pyte.x (pyte.cursor screen))) as [-> | _].
    + rewrite Hx in Hc. injection Hc as <-. contradiction.
    + apply andb_false_r.
Qed.

(** X12.  When the cursor is not shown (the instance does not ask for it, or the
    screen hides it), the image does not depend on where the cursor is:
    two screens with the same buffer give the same result. *)
Theorem hidden_cursor_position_irrelevant (self : tty2img)
  (screen screen' : pyte.Screen) :
  pyte.buffer screen = pyte.buffer screen' ->
  showCursor self && negb (pyte.hidden (pyte.cursor screen)) = false ->
  showCursor self && negb (pyte.hidden (pyte.cursor screen')) = false ->
  render H self screen = render H self screen'.
Proof.
  intros Hb Hs Hs'. unfold render. rewrite Hs, Hs', <- Hb.
  f_equal.
  rewrite (foldM_ext (render_line H (set_showCursor self false) screen)
             (render_line H (set_showCursor self false) screen')).
  - reflexivity.
  - intros ops line _. unfold render_line. rewrite <- Hb.
    destruct (getitem (pyte.buffer screen) line) as [row |]; cbn [bind];
      [| reflexivity].
    cbn [showCursor set_showCursor andb].
    unfold render_chars.
    rewrite (foldM_ext
               (render_char H (set_showCursor self false) screen line row
                  (line * charHeight (set_showCursor self false)
                   + marginSize (set_showCursor self false)))
               (render_char H (set_showCursor self false) screen' line row
                  (line * charHeight (set_showCursor self false)
                   + marginSize (set_showCursor self false)))).
    + reflexivity.
    + intros [[p l] o] c _. unfold render_char.
      destruct (getitem row c) as [cData |]; cbn [bind]; [| reflexivity].
      destruct (pyte.data cData =? EmptyString)%string; [reflexivity |].
      rewrite (draw_cell_cursor_ext (set_showCursor self false) screen screen');
        reflexivity.
Qed.

(** X13.  The image does not depend on the order in which the cells of a line
    were put into its dictionary: the columns are visited in ascending
    order, and each is looked up by its key. *)
Theorem column_insertion_order_irrelevant (self : tty2img)
  (screen : pyte.Screen) (line point1 : Z) (row row' : list (Z * pyte.Char))
  (st : Z * Z * list DrawOp) :
  Permutation row row' ->
  NoDup (keys row) ->
  sorted (keys row) = sorted (keys row') /\
  render_chars H self screen line row point1 st (sorted (keys row)) =
  render_chars H self screen line row' point1 st (sorted (keys row')) /\
  (forall k, contains k row = contains k row').
Proof.
  intros Hp Hnd.
  assert (Es : sorted (keys row) = sorted (keys row')).
  { apply sorted_Permutation. unfold keys. apply Permutation_map. exact Hp. }
  split; [exact Es |]. split.
  - rewrite <- Es. apply render_chars_ext.
    intros c _. apply lookup_Permutation; assumption.
  - intros k. unfold contains.
    rewrite (lookup_Permutation row row' Hp Hnd k). reflexivity.
Qed.

End Independence.

Section Failures.

Context (H : Host).

Lemma convertColor_Err (color : string) (e : exn) :
  _convertColor H color = Err e -> e = IndexError.
Proof.
  unfold _convertColor. destruct color as [| c0 rest].
  - intros E. injection E as <-. reflexivity.
  - destruct (negb (Ascii.eqb c0 "#") && _); intros E; discriminate E.
Qed.

Lemma getink_Err (fill : string) (e : exn) :
  getink H fill = Err e -> e = ValueError fill.
Proof.
  unfold getink. destruct (getrgb_ok H fill); intros E.
  - discriminate E.
  - injection E as <-. reflexivity.
Qed.

Lemma drawing_Err (e : exn) :
  (forall ops x0 y0 x1 y1 fill,
     draw_rectangle H ops x0 y0 x1 y1 fill = Err e -> e = ValueError fill) /\
  (forall ops x0 y0 x1 y1 fill,
     draw_line H ops x0 y0 x1 y1 fill = Err e -> e = ValueError fill) /\
  (forall ops x y s fill font,
     draw_text H ops x y s fill font = Err e -> e = ValueError fill).
Proof.
  unfold draw_rectangle, draw_line, draw_text.
  repeat split; intros;
    match goal with
    | E : bind (getink H ?f) _ = Err _ |- _ =>
        destruct (getink H f) eqn:G; cbn [bind] in E;
        [discriminate E | injection E as <-; apply getink_Err; exact G]
    end.
Qed.

Lemma draw_cell_Err (self : tty2img) (screen : pyte.Screen) (line char : Z)
  (cData : pyte.Char) (point0 point1 : Z) (ops : list DrawOp) (face : Face)
  (e : exn) :
  snd (select_font self cData) = Some face ->
  draw_cell H self screen line char cData point0 point1 ops = Err e ->
  render_exn e.
Proof.
  intros Hface. unfold draw_cell, render_exn.
  destruct (cell_colors self screen line char cData) as [bgc fgc].
  destruct (select_font self cData) as [font0 font1]. cbn [snd] in Hface.
  subst font1. cbn [fst snd].
  assert (M : forall r,
            memofont H self font0 (Some face) (pyte.data cData) = Err r ->
            r = NameError "fallbackFonts" \/ r = TypeError).
  { intros r.
    destruct (hex_ord H (pyte.data cData)) eqn:Eo.
    - destruct (Z.eq_dec (get_char_index H face (pyte.data cData)) 0)
        as [E0 | N0].
      + rewrite (memofont_not_covered H self font0 face (pyte.data cData));
          [| rewrite Eo; discriminate | exact E0].
        intros E. injection E as <-. left. reflexivity.
      + rewrite (memofont_covered H self font0 face _ N0).
        intros E. discriminate E.
    - rewrite (memofont_not_char H self font0 face _ Eo).
      intros E. injection E as <-. right. reflexivity. }
  destruct (drawing_Err e) as [DR [DL DT]].
  intros E.
  apply bind_Err_inv in E. destruct E as [E | [bgColor [_ E]]].
  { left. eapply convertColor_Err. exact E. }
  apply bind_Err_inv in E. destruct E as [E | [fgColor [_ E]]].
  { left. eapply convertColor_Err. exact E. }
  apply bind_Err_inv in E. destruct E as [E | [ops1 [_ E]]].
  { right. left. destruct (negb (bgColor =? bgDefaultColor self)%string).
    - eexists. eapply DR. exact E.
    - discriminate E. }
  apply bind_Err_inv in E. destruct E as [E | [[ew font] [_ E]]].
  { right. right. apply M. exact E. }
  apply bind_Err_inv in E. destruct E as [E | [ops2 [_ E]]].
  { right. left. destruct (pyte.underscore cData).
    - eexists. eapply DL. exact E.
    - discriminate E. }
  apply bind_Err_inv in E. destruct E as [E | [ops3 [_ E]]].
  { right. left. destruct (pyte.strikethrough cData).
    - eexists. eapply DL. exact E.
    - discriminate E. }
  apply bind_Err_inv in E. destruct E as [E | [ops4 [_ E]]].
  { right. left. eexists. eapply DT. exact E. }
  discriminate E.
Qed.

Lemma render_chars_Err (self : tty2img) (screen : pyte.Screen) (line : Z)
  (row : list (Z * pyte.Char)) (point1 : Z) (columns : list Z) (e : exn) :
  (forall cData, exists face, snd (select_font self cData) = Some face) ->
  (forall c, In c columns -> In c (keys row)) ->
  forall st,
  render_chars H self screen line row point1 st columns = Err e ->
  render_exn e.
Proof.
  intros Hfaces.
  induction columns as [| c rest IH]; intros Hin st E.
  - discriminate E.
  - rewrite render_chars_cons in E.
    apply bind_Err_inv in E. destruct E as [E | [st1 [_ E]]].
    + destruct st as [[p l] o]. unfold render_char, getitem in E.
      destruct (lookup_In c row (Hin c (or_introl eq_refl)))
        as [cData [Hl _]].
      rewrite Hl in E. cbn [bind] in E.
      destruct (pyte.data cData =? EmptyString)%string; [discriminate E |].
      apply bind_Err_inv in E. destruct E as [E | [[p2 o2] [_ E]]];
        [| discriminate E].
      destruct (Hfaces cData) as [face Hface].
      eapply draw_cell_Err; [exact Hface | exact E].
    + eapply IH; [| exact E]. intros c' Hc'. apply Hin. right. exact Hc'.
Qed.

Lemma render_line_Err (self : tty2img) (screen : pyte.Screen)
  (ops : list DrawOp) (line : Z) (e : exn) :
  (forall cData, exists face, snd (select_font self cData) = Some face) ->
  In line (keys (pyte.buffer screen)) ->
  render_line H self screen ops line = Err e ->
  render_exn e.
Proof.
  intros Hfaces Hline E. unfold render_line, getitem in E.
  destruct (lookup_In line (pyte.buffer screen) Hline) as [row [Hl _]].
  rewrite Hl in E. cbn [bind] in E.
  apply bind_Err_inv in E. destruct E as [E | [[[p l] o] [_ E]]].
  - eapply render_chars_Err; [exact Hfaces | | exact E].
    intros c Hc. rewrite sorted_In in Hc. exact Hc.
  - destruct (showCursor self && (line =? pyte.y (pyte.cursor screen))
              && negb (contains (pyte.x (pyte.cursor screen)) row));
      [| discriminate E].
    right. left. eexists. eapply (proj1 (drawing_Err e)). exact E.
Qed.

Lemma built_has_faces (a : Args) (fontSize0 : Z) (b : bool)
  (cData : pyte.Char) :
  exists face,
    snd (select_font (set_showCursor (built H a fontSize0) b) cData) =
    Some face.
Proof.
  unfold select_font.
  destruct (pyte.bold cData && pyte.italics cData);
    [eexists; reflexivity |].
  destruct (pyte.bold cData); [eexists; reflexivity |].
  destruct (pyte.italics cData); eexists; reflexivity.
Qed.

(** X14.  What [render] can raise on an instance made by [__init__]:
    [IndexError] for a colour that is the empty string, [ValueError] for a
    colour PIL rejects or a resize to nothing, [TypeError] for a cell
    whose string is not one character (freetype takes its [ord]), and
    [NameError] on [fallbackFonts] for a character without a glyph.  It
    never raises [KeyError]: the lines and columns it looks up are keys it
    has just read. *)
Theorem render_raises_only (a : Args) (self : tty2img)
  (screen : pyte.Screen) (e : exn) :
  __init__ H a = Ok self ->
  snd (render H self screen) = Err e ->
  render_exn e.
Proof.
  intros Hinit. apply init_Ok_inv in Hinit. destruct Hinit as [fs [_ ->]].
  unfold render. cbn [snd]. intros E.
  apply bind_Err_inv in E. destruct E as [E | [ops [_ E]]].
  - remember (set_showCursor (built H a fs)
                (showCursor (built H a fs)
                 && negb (pyte.hidden (pyte.cursor screen)))) as self'.
    assert (Hfaces : forall cData,
              exists face, snd (select_font self' cData) = Some face).
    { subst self'. intros cData. apply built_has_faces. }
    clear Heqself'.
    assert (G : forall lines ops0,
              (forall l, In l lines -> In l (keys (pyte.buffer screen))) ->
              foldM (render_line H self' screen) ops0 lines = Err e ->
              render_exn e).
    { induction lines as [| l rest IH]; intros ops0 Hin E0.
      - discriminate E0.
      - cbn [foldM] in E0. apply bind_Err_inv in E0.
        destruct E0 as [E0 | [ops1 [_ E0]]].
        + eapply render_line_Err; [exact Hfaces | | exact E0].
          apply Hin. left. reflexivity.
        + eapply IH; [| exact E0]. intros l' Hl'. apply Hin. right. exact Hl'. }
    eapply G; [| exact E]. intros l Hl. exact Hl.
  - destruct (antialiasing _ >? 1); [| discriminate E].
    unfold resize in E.
    destruct ((_ <? 1) || (_ <? 1)); [| discriminate E].
    injection E as <-. right. left. eexists. reflexivity.
Qed.

(** X15.  What [__init__] can raise: [OSError] for a font file that does not
    open, freetype's exception for a face that does not, and [ValueError]
    for a background colour PIL rejects.  There is no failure of the size
    negotiation as such. *)
Theorem init_raises_only (a : Args) (e : exn) :
  __init__ H a = Err e ->
  (exists file, e = OSError file) \/
  (exists file, e = FT_Exception file) \/
  e = ValueError (a_bgDefaultColor a).
Proof. apply (init_Err_kinds H). Qed.

(** X16.  The size a constructed instance draws with: either a candidate from 8
    to 63 at which the grid, laid out with the cell metrics of the
    instance, is wider than 1920 or higher than 1080 pixels, or the
    [fontSize] argument, when no candidate overflows.  The negotiation
    never settles on a candidate at which the grid fits. *)
Theorem adopted_size_overflows_or_nominal (a : Args) (self : tty2img) :
  __init__ H a = Ok self ->
  (8 <= size (fst (normalFont self)) < 64 /\
   (charWidth self * pyte.columns (a_screen a) + 2 * a_marginSize a > 1920 \/
    charHeight self * pyte.lines (a_screen a) + 2 * a_marginSize a > 1080))
  \/
  (size (fst (normalFont self)) = a_fontSize a /\
   forall j, 8 <= j < 64 ->
     overflows H a (mkFont (a_fontName a) j) = false).
Proof.
  intros Hinit. apply init_Ok_inv in Hinit. destruct Hinit as [fs [Hneg ->]].
  unfold range in Hneg. apply negotiate_Ok_inv in Hneg.
  change (Z.of_nat (Z.to_nat (64 - 8))) with 56 in Hneg.
  destruct Hneg as [[Hr [Hov _]] | [-> Hall]].
  - left. cbn [built normalFont fst size charWidth charHeight].
    split; [lia |]. unfold overflows in Hov.
    apply orb_true_iff in Hov. destruct Hov as [Hw | Hh].
    + left. apply Z.gtb_lt in Hw. lia.
    + right. apply Z.gtb_lt in Hh. lia.
  - right. split; [reflexivity |]. intros j Hj. apply Hall. lia.
Qed.

End Failures.

Section Bands.

Context (H : Host).

Lemma draw_cell_in_line (self : tty2img) (screen : pyte.Screen)
  (line char : Z) (cData : pyte.Char) (point0 : Z) (ops : list DrawOp)
  (point0' : Z) (ops' : list DrawOp) :
  draw_cell H self screen line char cData point0
    (line * charHeight self + marginSize self) ops = Ok (point0', ops') ->
  exists o, ops' = ops ++ o /\ Forall (op_in_line self line) o.
Proof.
  intros E. apply draw_cell_Ok_ops in E.
  destruct E as [bgColor [fgColor [_ [_ [_ ->]]]]].
  eexists. split; [reflexivity |].
  apply Forall_app; split.
  - destruct (bgColor =? bgDefaultColor self)%string; constructor;
      [split; reflexivity | constructor].
  - apply Forall_app; split.
    + destruct (pyte.underscore cData); constructor;
        [split; [reflexivity | left; reflexivity] | constructor].
    + apply Forall_app; split.
      * destruct (pyte.strikethrough cData); constructor;
          [split; [reflexivity | right; reflexivity] | constructor].
      * constructor; [reflexivity | constructor].
Qed.

Lemma render_chars_in_line (self : tty2img) (screen : pyte.Screen)
  (line : Z) (row : list (Z * pyte.Char)) (columns : list Z) :
  forall st st',
  render_chars H self screen line row
    (line * charHeight self + marginSize self) st columns = Ok st' ->
  exists o, snd st' = snd st ++ o /\ Forall (op_in_line self line) o.
Proof.
  induction columns as [| c rest IH]; intros st st' E.
  - injection E as <-. exists []. rewrite app_nil_r. split; constructor.
  - rewrite render_chars_cons in E.
    apply bind_Ok_inv in E. destruct E as [st1 [E1 E]].
    apply IH in E. destruct E as [o2 [E2 F2]].
    assert (exists o1, snd st1 = snd st ++ o1
                       /\ Forall (op_in_line self line) o1) as [o1 [Eo1 F1]].
    { destruct st as [[p l] o]. unfold render_char in E1.
      apply bind_Ok_inv in E1. destruct E1 as [cData [_ E1]].
      destruct (pyte.data cData =? EmptyString)%string.
      - injection E1 as <-. exists []. rewrite app_nil_r. split; constructor.
      - apply bind_Ok_inv in E1. destruct E1 as [[p2 o2'] [D E1]].
        injection E1 as <-. apply draw_cell_in_line in D. exact D. }
    exists (o1 ++ o2). rewrite E2, Eo1, app_assoc.
    split; [reflexivity | apply Forall_app; split; assumption].
Qed.

Lemma render_line_in_line (self : tty2img) (screen : pyte.Screen)
  (ops : list DrawOp) (line : Z) (ops' : list DrawOp) :
  render_line H self screen ops line = Ok ops' ->
  exists o, ops' = ops ++ o /\ Forall (op_in_line self line) o.
Proof.
  unfold render_line. intros E.
  apply bind_Ok_inv in E. destruct E as [row [_ E]].
  apply bind_Ok_inv in E. destruct E as [[[p l] o] [Ec E]].
  apply render_chars_in_line in Ec. cbn [snd] in Ec.
  destruct Ec as [o1 [-> F1]].
  destruct (showCursor self && (line =? pyte.y (pyte.cursor screen))
            && negb (contains (pyte.x (pyte.cursor screen)) row)).
  - apply draw_rectangle_Ok_inv in E. subst ops'.
    eexists. rewrite <- app_assoc. split; [reflexivity |].
    apply Forall_app. split; [exact F1 |].
    constructor; [split; reflexivity | constructor].
  - injection E as <-. exists o1. split; [reflexivity | exact F1].
Qed.

Lemma render_lines_in_lines (self : tty2img) (screen : pyte.Screen)
  (lines : list Z) :
  forall ops ops',
  foldM (render_line H self screen) ops lines = Ok ops' ->
  exists o,
    ops' = ops ++ o /\
    Forall (fun op => exists line, In line lines /\ op_in_line self line op) o.
Proof.
  induction lines as [| l rest IH]; intros ops ops' E.
  - injection E as <-. exists []. rewrite app_nil_r. split; constructor.
  - cbn [foldM] in E. apply bind_Ok_inv in E. destruct E as [ops1 [E1 E]].
    apply render_line_in_line in E1. destruct E1 as [o1 [-> F1]].
    apply IH in E. destruct E as [o2 [-> F2]].
    exists (o1 ++ o2). rewrite app_assoc. split; [reflexivity |].
    apply Forall_app. split.
    + eapply Forall_impl; [| exact F1]. intros op Hop.
      exists l. split; [left; reflexivity | exact Hop].
    + eapply Forall_impl; [| exact F2]. intros op [line [Hin Hop]].
      exists line. split; [right; exact Hin | exact Hop].
Qed.

(** X9.  Every drawing call of a rendered image lies in the band of pixels of a
    line that the buffer has: nothing is drawn for a line absent from the
    buffer, not even the cursor when it stands on such a line. *)
Theorem render_draws_on_buffer_lines (a : Args) (self self' : tty2img)
  (screen : pyte.Screen) (image : Image) (op : DrawOp) :
  __init__ H a = Ok self ->
  render H self screen = (self', Ok image) ->
  In op (Image_ops image) ->
  exists line,
    In line (keys (pyte.buffer screen)) /\ op_in_line self line op.
Proof.
  intros Hinit. apply init_Ok_inv in Hinit. destruct Hinit as [fs [_ ->]].
  unfold render. intros E. injection E as _ E.
  apply bind_Ok_inv in E. destruct E as [ops [Eops E]].
  apply render_lines_in_lines in Eops. destruct Eops as [o [-> F]].
  cbn [app] in E.
  assert (Eimg : Image_ops image = o).
  { match type of E with
    | (if ?c then _ else _) = _ => destruct c
    end.
    - unfold resize in E. destruct ((_ <? 1) || (_ <? 1));
        [discriminate E | injection E as <-; reflexivity].
    - injection E as <-. reflexivity. }
  rewrite Eimg. intros Hin. rewrite Forall_forall in F.
  destruct (F op Hin) as [line [Hl Hop]].
  exists line. split; [exact Hl | exact Hop].
Qed.

End Bands.

(** * The further properties on the small host *)

Lemma convertColor_fixpoint_witness :
  _convertColor Toy.host "00ff00" = Ok "#00ff00" /\
  _convertColor Toy.host "#00ff00" = Ok "#00ff00".
Proof.
  split; [reflexivity |].
  destruct (convertColor_fixpoint Toy.host "00ff00") as [_ F].
  destruct (F "#00ff00") as [I _]; [reflexivity | exact I].
Defined.

(** The first family has no font for the character, the second has. *)
Lemma fallback_first_family_wins_witness :
  memofont_in Toy.host Toy.patched_second Toy.renderer
    (mkFont "DejaVuSansMono.ttf" 16) (Some (mkFace "DejaVuSansMono.ttf"))
    Toy.uncovered =
  Ok (4, (mkFont "Symbola.ttf" 20, None), []).
Proof.
  apply (fallback_first_family_wins Toy.host Toy.patched_second Toy.renderer
           (mkFont "DejaVuSansMono.ttf" 16) (mkFace "DejaVuSansMono.ttf")
           Toy.uncovered
           (fun family _ =>
              if (family =? "Symbola")%string then ["Symbola.ttf"] else [])
           (Toy.cell "W") 20 "0xW" ["DroidSansFallback"] []
           "Symbola" "Symbola.ttf" []);
    try reflexivity.
  - simpl. discriminate.
  - intros f [<- | []]. reflexivity.
Defined.

(** From an empty cache: the first call logs and stores, the second is
    silent. *)
Lemma fallback_none_logs_witness :
  memofont_cached Toy.host Toy.patched_none [] Toy.ids Toy.renderer
    (mkFont "DejaVuSansMono.ttf" 16) (Some (mkFace "DejaVuSansMono.ttf"))
    Toy.uncovered =
  (Ok (0, (mkFont "DejaVuSansMono.ttf" 16,
           Some (mkFace "DejaVuSansMono.ttf"))),
   ["Missing glyph for 0xW Unicode symbols (W)"],
   [(call_key Toy.ids Toy.uncovered,
     (0, (mkFont "DejaVuSansMono.ttf" 16,
          Some (mkFace "DejaVuSansMono.ttf"))))]) /\
  memofont_cached Toy.host Toy.patched_none
    [(call_key Toy.ids Toy.uncovered,
      (0, (mkFont "DejaVuSansMono.ttf" 16,
           Some (mkFace "DejaVuSansMono.ttf"))))]
    Toy.ids Toy.renderer
    (mkFont "DejaVuSansMono.ttf" 16) (Some (mkFace "DejaVuSansMono.ttf"))
    Toy.uncovered =
  (Ok (0, (mkFont "DejaVuSansMono.ttf" 16,
           Some (mkFace "DejaVuSansMono.ttf"))),
   [],
   [(call_key Toy.ids Toy.uncovered,
     (0, (mkFont "DejaVuSansMono.ttf" 16,
          Some (mkFace "DejaVuSansMono.ttf"))))]).
Proof.
  apply (fallback_none_logs Toy.host Toy.patched_none [] Toy.ids Toy.renderer
           (mkFont "DejaVuSansMono.ttf" 16) (mkFace "DejaVuSansMono.ttf")
           Toy.uncovered (fun _ _ => []) (Toy.cell "W") "0xW"
           ["DroidSansFallback"; "Symbola"] true);
    try reflexivity.
  simpl. discriminate.
Defined.

(** As the module stands, from an empty cache: a covered letter is
    returned and stored. *)
Lemma memofont_by_coverage_witness :
  memofont_cached Toy.host module_globals [] Toy.ids Toy.renderer
    (mkFont "DejaVuSansMono.ttf" 16) (Some (mkFace "DejaVuSansMono.ttf"))
    "A" =
  (Ok (0, (mkFont "DejaVuSansMono.ttf" 16,
           Some (mkFace "DejaVuSansMono.ttf"))),
   [],
   [(call_key Toy.ids "A",
     (0, (mkFont "DejaVuSansMono.ttf" 16,
          Some (mkFace "DejaVuSansMono.ttf"))))]).
Proof.
  apply (memofont_by_coverage Toy.host [] Toy.ids Toy.renderer
           (mkFont "DejaVuSansMono.ttf" 16) (mkFace "DejaVuSansMono.ttf")
           "A").
  reflexivity.
Defined.

(** A bold red letter, underlined and struck through, on a bare hex
    background, at column 4 of line 2. *)
Lemma draw_cell_calls_witness :
  exists bgColor fgColor,
    _convertColor Toy.host "00ff00" = Ok bgColor /\
    _convertColor Toy.host "red" = Ok fgColor /\
    90 = 74 + 16 /\
    [Rectangle 74 50 90 70 "#00ff00"; Line 74 69 90 69 "red";
     Line 74 60 90 60 "red";
     Text 74 50 "Q" "red" (mkFont "DejaVuSansMono-Bold.ttf" 16)] =
    [] ++ (if (bgColor =? "white")%string then []
           else [Rectangle 74 50 (74 + 16) (50 + 20) bgColor])
       ++ [Line 74 (50 + 20 - 1) (74 + 16) (50 + 20 - 1) fgColor]
       ++ [Line 74 (50 + 20 / 2) (74 + 16) (50 + 20 / 2) fgColor]
       ++ [Text 74 50 "Q" fgColor (mkFont "DejaVuSansMono-Bold.ttf" 16)].
Proof.
  apply (draw_cell_calls Toy.host Toy.renderer Toy.screen10 2 4 Toy.fancy
           74 50 [] 90
           [Rectangle 74 50 90 70 "#00ff00"; Line 74 69 90 69 "red";
            Line 74 60 90 60 "red";
            Text 74 50 "Q" "red" (mkFont "DejaVuSansMono-Bold.ttf" 16)]).
  reflexivity.
Defined.

(** Columns 0, 1 and 3 with the empty string at column 1: the pen ends at
    10 + 16 * (3 + 1) - 16 * 1. *)
Lemma render_chars_pen_witness :
  3 = last [0; 1; 3] (-1) /\
  58 = 10 + 16 * (3 - -1) - 16 * count_empty Toy.row_empty [0; 1; 3].
Proof.
  apply (render_chars_pen Toy.host Toy.renderer Toy.screen10 0 Toy.row_empty
           10 [0; 1; 3] 10 (-1) [] 58 3
           [Text 10 10 "A" "black" (mkFont "DejaVuSansMono.ttf" 16);
            Text 42 10 "B" "black" (mkFont "DejaVuSansMono.ttf" 16)]).
  reflexivity.
Defined.

Lemma cell_drawn_at_column_witness :
  render_char Toy.host Toy.renderer Toy.screen10 0 Toy.row_empty 10
    (26, 1, [Text 10 10 "A" "black" (mkFont "DejaVuSansMono.ttf" 16)]) 3 =
  ('(p2, o2) <- draw_cell Toy.host Toy.renderer Toy.screen10 0 3
                  (Toy.cell "B")
                  (10 + 16 * (3 - count_empty Toy.row_empty [0; 1])) 10
                  [Text 10 10 "A" "black" (mkFont "DejaVuSansMono.ttf" 16)] ;;
   Ok (p2, 3, o2)).
Proof.
  apply (cell_drawn_at_column Toy.host Toy.renderer Toy.screen10 0
           Toy.row_empty 10 [0; 1] 3 (Toy.cell "B") [] 26 1
           [Text 10 10 "A" "black" (mkFont "DejaVuSansMono.ttf" 16)]).
  - reflexivity.
  - discriminate.
  - reflexivity.
Defined.

(** The cursor at column 6 of a line populated at 0, 1 (empty string) and
    3: the block is at 10 + 16 * (6 - 1). *)
Lemma cursor_block_position_witness :
  exists p l o,
    render_chars Toy.host Toy.with_cursor Toy.screen_cursor_gap 0
      Toy.row_empty 10 (10, -1, []) [0; 1; 3] = Ok (p, l, o) /\
    [Text 10 10 "A" "black" (mkFont "DejaVuSansMono.ttf" 16);
     Text 42 10 "B" "black" (mkFont "DejaVuSansMono.ttf" 16);
     Rectangle 90 10 106 30 "black"] =
    o ++ [Rectangle 90 10 (90 + 16) (10 + 20) "black"].
Proof.
  apply (cursor_block_position Toy.host Toy.with_cursor Toy.screen_cursor_gap
           [] 0 Toy.row_empty
           [Text 10 10 "A" "black" (mkFont "DejaVuSansMono.ttf" 16);
            Text 42 10 "B" "black" (mkFont "DejaVuSansMono.ttf" 16);
            Rectangle 90 10 106 30 "black"]);
    reflexivity.
Defined.

Lemma cursor_on_empty_cell_not_shown_witness :
  render_line Toy.host Toy.with_cursor Toy.screen_cursor_empty [] 0 =
  render_line Toy.host (set_showCursor Toy.with_cursor false)
    Toy.screen_cursor_empty [] 0.
Proof.
  apply (cursor_on_empty_cell_not_shown Toy.host Toy.with_cursor
           Toy.screen_cursor_empty [] 0 Toy.row_empty (Toy.cell EmptyString));
    reflexivity.
Defined.

Lemma hidden_cursor_position_irrelevant_witness :
  render Toy.host Toy.with_cursor Toy.screen_hidden =
  render Toy.host Toy.with_cursor Toy.screen_hidden_elsewhere.
Proof.
  apply (hidden_cursor_position_irrelevant Toy.host Toy.with_cursor
           Toy.screen_hidden Toy.screen_hidden_elsewhere);
    reflexivity.
Defined.

Lemma toy_row_shuffled : Permutation Toy.row_empty Toy.row_empty_shuffled.
Proof.
  unfold Toy.row_empty, Toy.row_empty_shuffled.
  apply Permutation_sym.
  apply (Permutation_cons_app [(0, Toy.cell "A"); (1, Toy.cell EmptyString)] []).
  rewrite app_nil_r. apply Permutation_refl.
Qed.

Lemma toy_row_keys_NoDup : NoDup (keys Toy.row_empty).
Proof.
  cbn. repeat constructor; cbn; intuition discriminate.
Qed.

Lemma column_insertion_order_irrelevant_witness :
  render_chars Toy.host Toy.renderer Toy.screen10 0 Toy.row_empty 10
    (10, -1, []) (sorted (keys Toy.row_empty)) =
  render_chars Toy.host Toy.renderer Toy.screen10 0 Toy.row_empty_shuffled 10
    (10, -1, []) (sorted (keys Toy.row_empty_shuffled)).
Proof.
  destruct (column_insertion_order_irrelevant Toy.host Toy.renderer
              Toy.screen10 0 10 Toy.row_empty Toy.row_empty_shuffled
              (10, -1, []) toy_row_shuffled toy_row_keys_NoDup)
    as [_ [E _]].
  exact E.
Defined.

(** A cell of two characters, as pyte stores a letter with a combining
    mark, raises [TypeError]. *)
Lemma render_raises_only_witness :
  snd (render Toy.host Toy.renderer Toy.screen_combining) = Err TypeError /\
  render_exn TypeError.
Proof.
  split; [reflexivity |].
  apply (render_raises_only Toy.host (Toy.defaults Toy.screen10) Toy.renderer
           Toy.screen_combining);
    reflexivity.
Defined.

Lemma init_raises_only_witness :
  (exists file, ValueError "nocolour" = OSError file) \/
  (exists file, ValueError "nocolour" = FT_Exception file) \/
  ValueError "nocolour" = ValueError (a_bgDefaultColor Toy.bad_background).
Proof.
  apply (init_raises_only Toy.host Toy.bad_background). reflexivity.
Defined.

(** On the 80x24 screen the adopted size is 24, at which the grid is 1940
    pixels wide. *)
Lemma adopted_size_overflows_or_nominal_witness :
  (8 <= 24 < 64 /\ (24 * 80 + 2 * 10 > 1920 \/ 30 * 24 + 2 * 10 > 1080)) \/
  (24 = 16 /\
   forall j, 8 <= j < 64 ->
     overflows Toy.host (Toy.defaults Toy.screen80)
       (mkFont "DejaVuSansMono.ttf" j) = false).
Proof.
  apply (adopted_size_overflows_or_nominal Toy.host
           (Toy.defaults Toy.screen80)
           (built Toy.host (Toy.defaults Toy.screen80) 24)).
  reflexivity.
Defined.

Lemma render_draws_on_buffer_lines_witness :
  exists line,
    In line (keys (pyte.buffer Toy.screen_cursor_gap)) /\
    op_in_line Toy.with_cursor line (Rectangle 90 10 106 30 "black").
Proof.
  apply (render_draws_on_buffer_lines Toy.host Toy.args_cursor Toy.with_cursor
           Toy.with_cursor Toy.screen_cursor_gap
           (Image_drawn (Image_new "RGBA" 1920 1080 "white")
              [Text 10 10 "A" "black" (mkFont "DejaVuSansMono.ttf" 16);
               Text 42 10 "B" "black" (mkFont "DejaVuSansMono.ttf" 16);
               Rectangle 90 10 106 30 "black"])).
  - reflexivity.
  - reflexivity.
  - cbn. right; right; left. reflexivity.
Defined.
